(** * DGADetector: a shallow embedding of [dga_detector.py]

    The detector wraps a character-level recurrent classifier: it
    truncates and vectorises domain names, pads them into a tensor, runs
    the network and post-processes its output.  The network itself, the
    tensor framework, the string vectoriser and the data loader are
    collaborators of the class; they appear here as an interface
    ([Framework]) or as definitions marked "Modelled from the spec". *)

From Stdlib Require Import ZArith QArith Qround Reals Lra Lia String Ascii.
From stdpp Require Import base list strings sorting gmap.

Local Open Scope string_scope.
Close Scope R_scope.
Close Scope Q_scope.
Local Open Scope nat_scope.

(** ** Exceptions and the detector monad *)

(** The Python exceptions the class can let escape. *)
Inductive Exn :=
  | AttributeError      (* attribute access on [None] *)
  | TypeError           (* calling [None] *)
  | ValueError          (* shape or length mismatch *)
  | IndexError          (* column 0 of a zero-width result *)
  | ZeroDivisionError
  | RuntimeError        (* raised by the tensor framework *)
  | FileNotFoundError.

Inductive result (A : Type) :=
  | Ok (a : A)
  | Raise (e : Exn).
Arguments Ok {A} a.
Arguments Raise {A} e.

(** Methods mutate [self]; a raised exception leaves the mutations made so
    far in place.  [Comp S A] threads the state and keeps it on failure. *)
Definition Comp (S A : Type) : Type := S → S * result A.

Definition cret {S A} (a : A) : Comp S A := λ s, (s, Ok a).
Definition cbind {S A B} (c : Comp S A) (k : A → Comp S B) : Comp S B :=
  λ s, match c s with
       | (s', Ok a) => k a s'
       | (s', Raise e) => (s', Raise e)
       end.
Definition craise {S A} (e : Exn) : Comp S A := λ s, (s, Raise e).
Definition cget {S} : Comp S S := λ s, (s, Ok s).
Definition cput {S} (s : S) : Comp S unit := λ _, (s, Ok tt).
Definition clift {S A} (r : result A) : Comp S A := λ s, (s, r).

Global Instance comp_ret {S} : MRet (Comp S) := λ A, cret.
Global Instance comp_bind {S} : MBind (Comp S) := λ A B k c, cbind c k.

(** The pure counterpart, for helpers that touch no state. *)
Definition rbind {A B} (r : result A) (k : A → result B) : result B :=
  match r with Ok a => k a | Raise e => Raise e end.

Global Instance result_ret : MRet result := λ A, Ok.
Global Instance result_bind : MBind result := λ A B k r, rbind r k.

Fixpoint rmapM {A B} (f : A → result B) (l : list A) : result (list B) :=
  match l with
  | [] => Ok []
  | x :: l' => y ← f x; ys ← rmapM f l'; Ok (y :: ys)
  end.

(** ** Strings *)

(** [Series.str.slice_replace(start, stop=None, repl)]: the part of the
    string from character [start] to its end is replaced by [repl]. *)
Definition slice_replace (start : nat) (repl : string) (s : string) : string :=
  String.substring 0 start s +:+ repl.

(** Character codes of a string, as [Series.str.code_points] gives them. *)
Fixpoint code_points (s : string) : list Z :=
  match s with
  | EmptyString => []
  | String c s' => Z.of_nat (nat_of_ascii c) :: code_points s'
  end.

(** ** Data frames *)

(** A column under its index: [(label, value)] per row, in storage order. *)
Abbreviation Indexed A := (list (nat * A)).

(** [cudf.DataFrame({"domain": domains})]: a fresh frame gets the labels
    [0 .. n-1]. *)
Definition DataFrame {A} (column : list A) : Indexed A :=
  zip (seq 0 (length column)) column.

(** The [domains] argument of [predict]: a Python list of strings, or a
    [cudf.Series] of strings with its index. *)
Inductive Domains :=
  | PyList (values : list string)
  | Series (rows : Indexed string).

Definition domain_values (domains : Domains) : list string :=
  match domains with
  | PyList values => values
  | Series rows => rows.*2
  end.

(** [cudf.DataFrame({"domain": domains})]: a list gets fresh labels, a
    series keeps its own index. *)
Definition domain_frame (domains : Domains) : Indexed string :=
  match domains with
  | PyList values => DataFrame values
  | Series rows => rows
  end.

(** The labels of the input grow along it: always so for a list, whose
    frame is labelled [0 .. n-1]. *)
Definition index_increasing (domains : Domains) : Prop :=
  match domains with
  | PyList _ => True
  | Series rows => Sorted lt (rows.*1)
  end.

(** [df[c].str.slice_replace(start, repl='')] (line 173): each string
    keeps its leading [start] characters.  A column built from no value
    gets the default float type, not the string type, and has no [.str]
    accessor: the attribute lookup raises. *)
Definition str_slice_replace (start : nat) (df : Indexed string) : result (Indexed string) :=
  match df with
  | [] => Raise AttributeError
  | _ => Ok ((λ r, (fst r, slice_replace start "" (snd r))) <$> df)
  end.

(** [df.index = labels]: relabels the rows in storage order. *)
Definition set_index {A} (df : Indexed A) (labels : list nat) : result (Indexed A) :=
  if decide (length labels = length df) then Ok (zip labels (df.*2))
  else Raise ValueError.

Definition lookup_label {A} (l : nat) (col : Indexed A) : option A :=
  snd <$> find (λ r, Nat.eqb (fst r) l) col.

(** [df[c] = series]: a series is aligned with the frame on the index;
    a label the series lacks gives a null. *)
Definition assign_aligned {A B} (df : Indexed A) (col : Indexed B) : Indexed (option B) :=
  (λ r, (fst r, lookup_label (fst r) col)) <$> df.

(** [df[c] = values] with a plain list: assigned in storage order. *)
Definition assign_list {A B} (df : Indexed A) (values : list B) : result (Indexed (A * B)) :=
  if decide (length values = length df)
  then Ok (zip_with (λ r v, (fst r, (snd r, v))) df values)
  else Raise ValueError.

Definition label_le {A} (r1 r2 : nat * A) : Prop := fst r1 ≤ fst r2.
Global Instance label_le_dec {A} : RelDecision (@label_le A).
Proof. intros r1 r2. unfold label_le. apply _. Defined.

(** [df.sort_index()] *)
Definition sort_index {A} (df : Indexed A) : Indexed A := merge_sort label_le df.

(** A vectorised row: its index label, the (truncated) domain, the label
    column when the frame has one, the [len] column and the character
    columns. *)
Record VRow (L : Type) : Type := mkVRow {
  v_index : nat;
  v_domain : string;
  v_type : L;
  v_len : Z;
  v_chars : list Z
}.
Arguments mkVRow {L} _ _ _ _ _.
Arguments v_index {L} _.
Arguments v_domain {L} _.
Arguments v_type {L} _.
Arguments v_len {L} _.
Arguments v_chars {L} _.

(** A vectorised frame has as many character columns as its longest
    domain has characters; the number of columns is part of the frame,
    also when it has no rows. *)
Record Frame (L : Type) : Type := mkFrame {
  f_width : nat;
  f_rows : list (VRow L)
}.
Arguments mkFrame {L} _ _.
Arguments f_width {L} _.
Arguments f_rows {L} _.

(** The reordering the vectoriser applies to its rows: positions of the
    input in the order of the output.  It neither drops nor repeats a
    row. *)
Class Vectoriser := {
  order : list string → list nat;
  order_perm : ∀ doms, order doms ≡ₚ seq 0 (length doms)
}.

Definition max_len (doms : list string) : nat :=
  foldr (λ s m, Nat.max (String.length s) m) 0 doms.

Definition vectorise_row {L} (w : nat) (r : nat * (string * L)) : VRow L :=
  let s := fst (snd r) in
  {| v_index := fst r;
     v_domain := s;
     v_type := snd (snd r);
     v_len := Z.of_nat (String.length s);
     v_chars := code_points s ++ replicate (w - String.length s) 0%Z |}.

(** Modelled from the spec: [utils.str2ascii] is not part of the sources.
    The spec has it "vectorize" each domain "to character-index
    sequences", a "fixed-length integer vector of character codes plus
    its ... sequence length", with an "internal reordering during
    vectorization"; [predict] reads from its result the index, the
    [domain] and [len] columns and the character columns.  Rows keep their
    index label and their other columns; shorter domains are filled with
    zeros up to the longest one. *)
Definition str2ascii `{Vectoriser} {L} (df : Indexed (string * L)) : Frame L :=
  let doms := (λ r, fst (snd r)) <$> df in
  let w := max_len doms in
  {| f_width := w;
     f_rows := vectorise_row w <$> omap (λ k, df !! k) (order doms) |}.


(** The instance the source comment names ("sorted domains index"):
    longest domain first. *)
Definition longer_first (r1 r2 : nat * string) : Prop :=
  String.length (snd r2) ≤ String.length (snd r1).
Global Instance longer_first_dec : RelDecision longer_first.
Proof. intros r1 r2. unfold longer_first. apply _. Defined.

Definition by_length (doms : list string) : list nat :=
  (merge_sort longer_first (zip (seq 0 (length doms)) doms)).*1.

(** ** Tensors *)

(** [input[:n, :w] = seq_cp] on an [n]-row target: entry [(i, j)] with
    [j < w] is overwritten, the others keep their value. *)
Definition assign_block (input seq_cp : list (list Z)) (w : nat) : list (list Z) :=
  zip_with (λ zrow crow, imap (λ j z, if decide (j < w) then default z (crow !! j) else z) zrow)
           input seq_cp.

(** [DGADetector._create_variables]: the [len] column becomes the length
    tensor; the character columns are copied into the left part of an
    [n × pad_max_len] array of zeros.  The slice [input[:n, :w]] is only
    [pad_max_len] wide, so a frame with more character columns than that
    cannot be assigned and cupy raises. *)
Definition _create_variables {L} (df : Frame L) (pad_max_len : nat)
    : result (list (list Z) * list Z) :=
  let seq_len_arr := v_len <$> f_rows df in
  let seq_cp := v_chars <$> f_rows df in
  let n := length seq_cp in
  let w := f_width df in
  let input := replicate n (replicate pad_max_len 0%Z) in
  if decide (w ≤ pad_max_len)
  then Ok (assign_block input seq_cp w, seq_len_arr)
  else Raise ValueError.

(** [DGADetector._create_types_tensor] *)
Definition _create_types_tensor (type_series : list Z) : list Z := type_series.

(** A score as the network computes it: a floating-point number is a
    finite value, read as a rational, an infinity, or not a number. *)
Inductive Score :=
  | Finite (q : Q)
  | PosInf
  | NegInf
  | NaN.

(** The order [max] goes by: a NaN counts as the largest value, so that
    it is propagated. *)
Definition score_le (x y : Score) : bool :=
  match x, y with
  | _, NaN => true
  | NaN, _ => false
  | _, PosInf => true
  | PosInf, _ => false
  | NegInf, _ => true
  | _, NegInf => false
  | Finite a, Finite b => Qle_bool a b
  end.

(** [output.data.max(1, keepdim=True)[1]] on one row: the position of the
    first maximal entry; a row without entries cannot be reduced. *)
Fixpoint argmax_from (best_i : nat) (best : Score) (i : nat) (row : list Score) : nat :=
  match row with
  | [] => best_i
  | x :: row' =>
      if score_le x best then argmax_from best_i best (S i) row'
      else argmax_from i x (S i) row'
  end.

Definition argmax (row : list Score) : result nat :=
  match row with
  | [] => Raise IndexError
  | x :: row' => Ok (argmax_from 0 x 1 row')
  end.

(** [c] is the position of the first largest entry of [row]. *)
Definition first_max (row : list Score) (c : nat) : Prop :=
  ∃ b, row !! c = Some b
       ∧ (∀ j x, row !! j = Some x → score_le x b = true)
       ∧ (∀ j x, j < c → row !! j = Some x → score_le b x = false).

(** [model_result[:, 0]] *)
Definition column0 (row : list Score) : result Score :=
  match row with
  | [] => Raise IndexError
  | x :: _ => Ok x
  end.

(** The sigmoid function on the reals. *)
Definition sigmoid (x : R) : R := (1 / (1 + exp (- x)))%R.

(** A floating-point result: a real value, or not a number. *)
Inductive FloatVal :=
  | Real (r : R)
  | NotANumber.

(** [torch.sigmoid] on one score: the limits at the infinities, and a
    NaN for a NaN. *)
Definition torch_sigmoid (x : Score) : FloatVal :=
  match x with
  | Finite q => Real (sigmoid (Q2R q))
  | PosInf => Real 1%R
  | NegInf => Real 0%R
  | NaN => NotANumber
  end.

(** ** The network and the libraries around it *)

(** An [RNNClassifier] object: the four architecture attributes the
    checkpoint stores, its parameters and the [training] flag of
    [nn.Module]. *)
Record RNNClassifier (P : Type) : Type := mkRNN {
  input_size : nat;
  hidden_size : nat;
  output_size : nat;
  n_layers : nat;
  state_dict : P;
  training : bool
}.
Arguments mkRNN {P} _ _ _ _ _ _.
Arguments input_size {P} _.
Arguments hidden_size {P} _.
Arguments output_size {P} _.
Arguments n_layers {P} _.
Arguments state_dict {P} _.
Arguments training {P} _.

(** What the detector calls but does not define: the network's
    constructor and forward pass, the loss, the optimizer and the
    train/test split.  No law is assumed of them; a forward pass may
    raise. *)
Class Framework := {
  Params : Type;
  Optimizer : Type;
  (** fresh parameters of [RNNClassifier(input, hidden, output, layers)] *)
  rnn_init : nat → nat → nat → nat → Params;
  (** [model(input, seq_lengths)]: one row of class scores per input row *)
  rnn_forward : RNNClassifier Params → list (list Z) → list Z → result (list (list Score));
  new_optimizer : RNNClassifier Params → Optimizer;
  (** [criterion(model_result, types_tensor)] and [loss.item()] *)
  criterion : list (list Score) → list Z → result Q;
  (** [model.zero_grad(); loss.backward(); optimizer.step()] *)
  optimizer_step : RNNClassifier Params → Optimizer → list (list Score) → list Z
                   → Params * Optimizer;
  (** [sklearn.model_selection.train_test_split(df, train_size=...)] *)
  train_test_split : list (string * Z) → Q → list (string * Z) * list (string * Z)
}.

(** One result of [predict]: a probability or a class index. *)
Inductive Pred :=
  | Prob (p : FloatVal)
  | Class (c : nat).

(** Lines 183-184 on one row: the sigmoid of the entry in column 0. *)
Definition to_probability (row : list Score) : result Pred :=
  x ← column0 row; Ok (Prob (torch_sigmoid x)).

(** Line 188 on one row: the position of the largest entry. *)
Definition to_class (row : list Score) : result Pred :=
  c ← argmax row; Ok (Class c).

Definition post (probability : bool) (row : list Score) : result Pred :=
  if probability then to_probability row else to_class row.

(** A data loader as the detector uses it: the chunks its [get_chunks()]
    yields and its [dataset_len]. *)
Record DataLoader := mkDataLoader {
  get_chunks : list (Frame Z);
  dataset_len : nat
}.

Fixpoint chunk_rows {A} (fuel batchsize : nat) (rows : list A) : list (list A) :=
  match fuel, rows with
  | S fuel', _ :: _ => take batchsize rows :: chunk_rows fuel' batchsize (drop batchsize rows)
  | _, _ => []
  end.

(** Modelled from the spec: the [DataLoader] class is not part of the
    sources.  The spec's batch is "a fixed-size group of domain records":
    the data set is cut, in order, into groups of [batchsize] rows (the
    last one may be shorter), and [dataset_len] is its number of rows.
    The model is meant for a positive [batchsize]. *)
Definition DataLoader_new (dataset : Frame Z) (batchsize : nat) : DataLoader :=
  {| get_chunks := mkFrame (f_width dataset)
                     <$> chunk_rows (length (f_rows dataset)) batchsize (f_rows dataset);
     dataset_len := length (f_rows dataset) |}.

(** [df.drop([...], axis=1)]: the remaining columns are [len] and the
    character columns. *)
Definition drop_columns {L} (df : Frame L) : Frame unit :=
  {| f_width := f_width df;
     f_rows := (λ r, mkVRow (v_index r) "" tt (v_len r) (v_chars r)) <$> f_rows df |}.

Definition truncate_domains {A} (truncate : nat) (df : Indexed (string * A)) : Indexed (string * A) :=
  (λ r, (fst r, (slice_replace truncate "" (fst (snd r)), snd (snd r)))) <$> df.

(** The truncated domains, in input order. *)
Definition truncated (truncate : nat) (domains : list string) : list string :=
  slice_replace truncate "" <$> domains.

(** The encoding of the domain under label [k], once truncated. *)
Definition encoded (truncate : nat) (domains : list string) (k : nat) (d : string) : VRow unit :=
  vectorise_row (max_len (truncated truncate domains)) (k, (slice_replace truncate "" d, tt)).

(** Modelled from the spec: the [DGADataset] class is not part of the
    sources.  It is built from a frame and the truncation width; the
    spec's training "builds tensors as in inference", so the domains are
    truncated and vectorised as [predict] does it. *)
Definition DGADataset `{Vectoriser} (df : Indexed (string * Z)) (truncate : nat) : Frame Z :=
  str2ascii (truncate_domains truncate df).

(** How many predictions equal their label. *)
Definition matches (pred : list nat) (target : list Z) : nat :=
  length (filter (λ pt, Z.of_nat (fst pt) = snd pt) (zip pred target)).

(** [(pred == target).sum()]; [target.view_as(pred)] needs as many labels
    as predictions. *)
Definition eq_count (pred : list nat) (target : list Z) : result nat :=
  if decide (length pred = length target)
  then Ok (matches pred target)
  else Raise RuntimeError.

Fixpoint cfoldM {S A B} (f : A → B → Comp S A) (a : A) (l : list B) : Comp S A :=
  match l with
  | [] => mret a
  | x :: l' => a' ← f a x; cfoldM f a' l'
  end.

Fixpoint crepeat {S} (n : nat) (c : Comp S unit) : Comp S unit :=
  match n with
  | 0 => mret tt
  | S n' => c;; crepeat n' c
  end.

(** ** The detector *)

Section Detector.
Context `{FW : Framework} `{VZ : Vectoriser}.

Abbreviation RNN := (RNNClassifier Params).

(** The record [torch.save] writes. *)
Record Checkpoint : Type := mkCheckpoint {
  ck_state_dict : Params;
  ck_input_size : nat;
  ck_hidden_size : nat;
  ck_n_layers : nat;
  ck_output_size : nat
}.

(** The detector object ([model], [optimizer]) and the files it has saved. *)
Record State : Type := mkState {
  model : option RNN;
  optimizer : option Optimizer;
  files : gmap string Checkpoint
}.

Definition get_model : Comp State RNN :=
  λ s, match model s with
       | Some m => (s, Ok m)
       | None => (s, Raise AttributeError)
       end.

Definition set_model (m : RNN) : Comp State unit :=
  λ s, (mkState (Some m) (optimizer s) (files s), Ok tt).

Definition set_training (b : bool) (m : RNN) : RNN :=
  mkRNN (input_size m) (hidden_size m) (output_size m) (n_layers m) (state_dict m) b.

(** [self.model(input, seq_lengths)] *)
Definition call_model (input : list (list Z)) (seq_lengths : list Z)
    : Comp State (list (list Score)) :=
  λ s, match model s with
       | Some m => (s, rnn_forward m input seq_lengths)
       | None => (s, Raise TypeError)
       end.

(** [self.model.eval()] and [self.model.train()] *)
Definition model_eval : Comp State unit := m ← get_model; set_model (set_training false m).
Definition model_train : Comp State unit := m ← get_model; set_model (set_training true m).

(** The detector with its model, if any, switched to evaluation mode. *)
Definition in_eval_mode (s : State) : State :=
  match model s with
  | Some m => mkState (Some (set_training false m)) (optimizer s) (files s)
  | None => s
  end.

(** A computation that leaves the detector as it is and whose result
    depends on the detector's model only. *)
Definition model_reader {A} (c : Comp State A) : Prop :=
  ∀ s, fst (c s) = s ∧ ∀ s', model s' = model s → snd (c s') = snd (c s).

(** [RNNClassifier(input_size, hidden_size, output_size, n_layers)] *)
Definition RNNClassifier_new (i h o n : nat) : RNN := mkRNN i h o n (rnn_init i h o n) true.

(** [model.load_state_dict(d)] *)
Definition load_state_dict (d : Params) (m : RNN) : RNN :=
  mkRNN (input_size m) (hidden_size m) (output_size m) (n_layers m) d (training m).

(** Modelled from the spec: [Detector.leverage_model] is in the base
    class, which is not part of the sources.  It "installs the network as
    the active model"; the optimizer that [_get_loss] steps belongs to
    the installed network. *)
Definition leverage_model (m : RNN) : Comp State unit :=
  λ s, (mkState (Some m) (Some (new_optimizer m)) (files s), Ok tt).

(** [DGADetector.init_model] *)
Definition init_model (char_vocab hidden_size n_domain_type n_layers : nat) : Comp State unit :=
  s ← cget;
  match model s with
  | None => leverage_model (RNNClassifier_new char_vocab hidden_size n_domain_type n_layers)
  | Some _ => mret tt
  end.

(** [torch.load(file_path)] *)
Definition torch_load (file_path : string) : Comp State Checkpoint :=
  λ s, match files s !! file_path with
       | Some c => (s, Ok c)
       | None => (s, Raise FileNotFoundError)
       end.

(** Modelled from the spec: [Detector._save_checkpoint] is in the base
    class; it "persists" the checkpoint "as a single checkpoint record to
    a given path". *)
Definition _save_checkpoint (checkpoint : Checkpoint) (file_path : string) : Comp State unit :=
  λ s, (mkState (model s) (optimizer s) (<[file_path := checkpoint]> (files s)), Ok tt).

(** [DGADetector.load_checkpoint] *)
Definition load_checkpoint (file_path : string) : Comp State unit :=
  checkpoint ← torch_load file_path;
  let model := RNNClassifier_new (ck_input_size checkpoint) (ck_hidden_size checkpoint)
                                 (ck_output_size checkpoint) (ck_n_layers checkpoint) in
  let model := load_state_dict (ck_state_dict checkpoint) model in
  leverage_model model.

(** [DGADetector.save_checkpoint]; [get_unwrapped_model] gives the active
    model, or [None] before initialisation. *)
Definition save_checkpoint (file_path : string) : Comp State unit :=
  model ← get_model;
  let checkpoint :=
    {| ck_state_dict := state_dict model;
       ck_input_size := input_size model;
       ck_hidden_size := hidden_size model;
       ck_n_layers := n_layers model;
       ck_output_size := output_size model |} in
  _save_checkpoint checkpoint file_path.

(** [DGADetector._get_loss] *)
Definition _get_loss (model_result : list (list Score)) (types_tensor : list Z)
    : Comp State Q :=
  loss ← clift (criterion model_result types_tensor);
  s ← cget;
  m ← get_model;
  match optimizer s with
  | None => craise AttributeError
  | Some opt =>
      let '(params, opt') := optimizer_step m opt model_result types_tensor in
      cput (mkState (Some (load_state_dict params m)) (Some opt') (files s));;
      mret loss
  end.

(** The frame [utils.str2ascii] makes of the truncated domains in
    [predict] (lines 171-174). *)
Definition predict_frame (domains : Domains) (truncate : nat) : Frame unit :=
  let df := (λ r, (fst r, (snd r, tt))) <$> domain_frame domains in
  let df := truncate_domains truncate df in
  str2ascii df.

(** [DGADetector.predict]; the result is the [preds] column, a series
    under the index of the sorted frame. *)
Definition predict (domains : Domains) (probability : bool)
    (truncate pad_max_len : nat) : Comp State (Indexed Pred) :=
  model_eval;;
  let df := domain_frame domains in
  df ← clift (str_slice_replace truncate df);
  let temp_df := predict_frame domains truncate in
  df ← clift (set_index df (v_index <$> f_rows temp_df));
  let df := assign_aligned df ((λ r : VRow unit, (v_index r, v_domain r)) <$> f_rows temp_df) in
  let temp_df := drop_columns temp_df in
  '(input, seq_lengths) ← clift (_create_variables temp_df pad_max_len);
  model_result ← call_model input seq_lengths;
  preds ← clift (if probability
                 then rmapM to_probability model_result
                 else rmapM to_class model_result);
  df ← clift (assign_list df (preds : list Pred));
  mret ((λ r : nat * (option string * Pred), (fst r, snd (snd r))) <$> sort_index df).

(** The arg-max predictions of the network for the rows of one chunk
    (lines 255-258). *)
Definition batch_predictions (m : RNN) (pad_max_len : nat) (df : Frame Z) : result (list nat) :=
  '(input, seq_lengths) ← _create_variables (drop_columns df) pad_max_len;
  output ← rnn_forward m input seq_lengths;
  rmapM argmax output.

(** One pass of the loop body of [evaluate_model] (lines 254-259). *)
Definition evaluate_batch (pad_max_len : nat) (correct : nat) (df : Frame Z) : Comp State nat :=
  let target := _create_types_tensor (v_type <$> f_rows df) in
  let df := drop_columns df in
  '(input, seq_lengths) ← clift (_create_variables df pad_max_len);
  output ← call_model input seq_lengths;
  pred ← clift (rmapM argmax output);
  matches ← clift (eq_count pred target);
  mret (correct + matches).

(** [DGADetector.evaluate_model]; the accuracy is the quotient of two
    integers, read as a rational. *)
Definition evaluate_model (dataloader : DataLoader) (pad_max_len : nat) : Comp State Q :=
  correct ← cfoldM (evaluate_batch pad_max_len) 0 (get_chunks dataloader);
  if decide (dataset_len dataloader = 0) then craise ZeroDivisionError
  else mret (Z.of_nat correct # Pos.of_nat (dataset_len dataloader))%Q.

(** One pass of the loop body of [train_model] (lines 125-140) on the
    running [(total_loss, i)].  The progress line printed every tenth
    batch divides by [dataset_len]. *)
Definition train_batch (pad_max_len : nat) (train_len : nat)
    (acc : Q * nat) (df : Frame Z) : Comp State (Q * nat) :=
  let '(total_loss, i) := acc in
  let domains_len := length (f_rows df) in
  if decide (0 < domains_len) then
    let types_tensor := _create_types_tensor (v_type <$> f_rows df) in
    let df := drop_columns df in
    '(input, seq_lengths) ← clift (_create_variables df pad_max_len);
    model_result ← call_model input seq_lengths;
    loss ← _get_loss model_result types_tensor;
    let total_loss := (total_loss + loss)%Q in
    let i := i + 1 in
    if decide (i `mod` 10 = 0)
    then (if decide (train_len = 0) then craise ZeroDivisionError else mret (total_loss, i))
    else mret (total_loss, i)
  else mret acc.

(** [DGADetector._create_df]: both columns get the labels [0 .. n-1]. *)
Definition _create_df (rows : list (string * Z)) : Indexed (string * Z) := DataFrame rows.

(** [DGADetector._preprocess_data] *)
Definition _preprocess_data (train_data : list string) (labels : list Z)
    (batch_size : nat) (train_size : Q) (truncate : nat) : DataLoader * DataLoader :=
  let train_gdf := zip train_data labels in
  let '(train, test) := train_test_split train_gdf train_size in
  let test_df := _create_df test in
  let train_df := _create_df train in
  let test_dataset := DGADataset test_df truncate in
  let train_dataset := DGADataset train_df truncate in
  let test_dataloader := DataLoader_new test_dataset batch_size in
  let train_dataloader := DataLoader_new train_dataset batch_size in
  (train_dataloader, test_dataloader).

(** One epoch of [train_model] (lines 122-141); [evaluate_model] is called
    with its default padding width. *)
Definition train_epoch (pad_max_len : nat) (train_dataloader test_dataloader : DataLoader)
    : Comp State unit :=
  cfoldM (train_batch pad_max_len (dataset_len train_dataloader)) (0%Q, 0)
         (get_chunks train_dataloader);;
  evaluate_model test_dataloader 100;;
  mret tt.

(** [DGADetector.train_model] *)
Definition train_model (train_data : list string) (labels : list Z)
    (batch_size epochs : nat) (train_size : Q) (truncate pad_max_len : nat) : Comp State unit :=
  model_train;;
  let '(train_dataloader, test_dataloader) :=
    _preprocess_data train_data labels batch_size train_size truncate in
  crepeat epochs (train_epoch pad_max_len train_dataloader test_dataloader).

End Detector.

(** ** Views of the detector *)

Section Views.
Context `{FW : Framework}.

(** The attributes of the network a checkpoint records besides its
    parameters. *)
Definition architecture (m : RNNClassifier Params) : nat * nat * nat * nat :=
  (input_size m, hidden_size m, output_size m, n_layers m).

(** Architecture and mode of the detector's model, if it has one. *)
Definition shape (s : State) : option (nat * nat * nat * nat * bool) :=
  (λ m, (architecture m, training m)) <$> model s.

(** A computation that changes neither the architecture, nor the mode,
    nor the saved files, whether it returns or raises. *)
Definition keeps_shape {A} (c : Comp State A) : Prop :=
  ∀ s, shape (fst (c s)) = shape s ∧ files (fst (c s)) = files s.

End Views.

(** The examples a data loader hands out: domain and label of every row
    of its chunks, in the order of the chunks. *)
Definition examples_of (dataloader : DataLoader) : list (string * Z) :=
  (λ r, (v_domain r, v_type r)) <$> concat (f_rows <$> get_chunks dataloader).

(** A class result that equals the label beside it. *)
Definition is_hit (pl : Pred * Z) : bool :=
  match fst pl with
  | Class c => bool_decide (Z.of_nat c = snd pl)
  | Prob _ => false
  end.

(** How many results of [predict] are the class their label names. *)
Definition class_matches (out : list Pred) (labels : list Z) : nat :=
  length (filter (λ pl, is_hit pl = true) (zip out labels)).

(** ** A small framework to run the detector on *)

(** Scores of one row of the toy network: class 0 gets [bias - len],
    class 1 gets [len]. *)
Definition toy_scores (bias : Z) (len : Z) : list Score :=
  [Finite (inject_Z (bias - len)); Finite (inject_Z len)].

(** The toy forward pass rejects a batch without rows, as packing an
    empty padded batch does, and a length tensor that does not match. *)
Definition toy_forward (m : RNNClassifier Z) (input : list (list Z)) (seq_lengths : list Z)
    : result (list (list Score)) :=
  match input with
  | [] => Raise RuntimeError
  | _ => if decide (length input = length seq_lengths)
         then Ok (toy_scores (state_dict m) <$> seq_lengths)
         else Raise RuntimeError
  end.

Definition toy_criterion (model_result : list (list Score)) (types_tensor : list Z)
    : result Q :=
  if decide (length model_result = length types_tensor) then Ok 1%Q
  else Raise RuntimeError.

Definition toy_split (df : list (string * Z)) (train_size : Q)
    : list (string * Z) * list (string * Z) :=
  let n_train := Z.to_nat (Qfloor (train_size * inject_Z (Z.of_nat (length df)))) in
  (take n_train df, drop n_train df).

Definition toy : Framework :=
  {| Params := Z;
     Optimizer := nat;
     rnn_init := λ _ _ _ _, 5%Z;
     rnn_forward := toy_forward;
     new_optimizer := λ _, 0;
     criterion := toy_criterion;
     optimizer_step := λ m opt _ _, ((state_dict m + 1)%Z, S opt);
     train_test_split := toy_split |}.

(** A detector around the toy network, initialised as [init_model()]
    does it by default. *)
Definition toy_empty : @State toy := mkState None None ∅.
Definition toy_state : @State toy := fst (init_model 128 100 2 3 toy_empty).

(** A network whose parameters have diverged: every score it computes
    is a NaN. *)
Definition nan_forward (m : RNNClassifier unit) (input : list (list Z)) (seq_lengths : list Z)
    : result (list (list Score)) :=
  Ok ((λ _, replicate (output_size m) NaN) <$> input).

Definition nan_net : Framework :=
  {| Params := unit;
     Optimizer := unit;
     rnn_init := λ _ _ _ _, tt;
     rnn_forward := nan_forward;
     new_optimizer := λ _, tt;
     criterion := toy_criterion;
     optimizer_step := λ _ _ _ _, (tt, tt);
     train_test_split := toy_split |}.

Definition nan_state : @State nan_net := fst (init_model 128 100 2 3 (mkState None None ∅)).

(** The vectoriser the examples run with. *)
Lemma by_length_perm (doms : list string) : by_length doms ≡ₚ seq 0 (length doms).
Proof.
  unfold by_length. rewrite merge_sort_Permutation.
  rewrite fst_zip; [done | by rewrite length_seq].
Qed.

Global Instance by_length_vectoriser : Vectoriser :=
  {| order := by_length; order_perm := by_length_perm |}.

(** * Properties *)

(** ** Running computations *)

Lemma cbind_ok {S A B} (c : Comp S A) (k : A → Comp S B) s s' a :
  c s = (s', Ok a) → (c ≫= k) s = k a s'.
Proof. intros Hc. unfold mbind, comp_bind, cbind. by rewrite Hc. Qed.

Lemma cbind_raise {S A B} (c : Comp S A) (k : A → Comp S B) s s' e :
  c s = (s', Raise e) → (c ≫= k) s = (s', Raise e).
Proof. intros Hc. unfold mbind, comp_bind, cbind. by rewrite Hc. Qed.

Lemma clift_bind_ok {S A B} (r : result A) (k : A → Comp S B) s a :
  r = Ok a → (clift r ≫= k) s = k a s.
Proof. intros ->. done. Qed.

Lemma clift_bind_raise {S A B} (r : result A) (k : A → Comp S B) s e :
  r = Raise e → (clift r ≫= k) s = (s, Raise e).
Proof. intros ->. done. Qed.

Lemma rmapM_ok {A B} (f : A → result B) (l : list A) (l' : list B) :
  rmapM f l = Ok l' ↔ Forall2 (λ x y, f x = Ok y) l l'.
Proof.
  revert l'. induction l as [|x l IH]; intros l'; simpl.
  - split; [intros [= <-]; constructor | by inversion 1].
  - unfold mbind, result_bind, rbind. destruct (f x) as [y|e] eqn:Hx.
    + destruct (rmapM f l) as [ys|e] eqn:Hl.
      * split.
        -- intros [= <-]. constructor; [done | by apply IH].
        -- inversion 1 as [|? y' ? ys' Hy Hys]; subst.
           apply IH in Hys. congruence.
      * split; [done |]. inversion 1 as [|? y' ? ys' Hy Hys]; subst.
        by apply IH in Hys.
    + split; [done |]. inversion 1; congruence.
Qed.

(** ** Truncation *)

Lemma string_app_cons (c : ascii) (s1 s2 : string) :
  String c s1 +:+ s2 = String c (s1 +:+ s2).
Proof. reflexivity. Qed.

Lemma string_app_empty_r (s : string) : s +:+ "" = s.
Proof. induction s as [|c s IH]; [done | by rewrite string_app_cons, IH]. Qed.

Lemma substring_prefix_length (n : nat) (s : string) :
  String.length (substring 0 n s) = n `min` String.length s.
Proof.
  revert n. induction s as [|c s IH]; intros [|n]; simpl; try done.
  by rewrite IH.
Qed.

Lemma substring_prefix_all (n : nat) (s : string) :
  String.length s ≤ n → substring 0 n s = s.
Proof.
  revert n. induction s as [|c s IH]; intros [|n] Hn; simpl in *; try done; try lia.
  rewrite IH; [done | lia].
Qed.

Lemma substring_prefix_split (n : nat) (s : string) :
  ∃ rest, s = substring 0 n s +:+ rest.
Proof.
  revert n. induction s as [|c s IH]; intros [|n]; simpl.
  - by exists "".
  - by exists "".
  - by exists (String c s).
  - destruct (IH n) as [rest Hrest]. exists rest.
    by rewrite string_app_cons, <-Hrest.
Qed.

Lemma code_points_length (s : string) : length (code_points s) = String.length s.
Proof. induction s as [|c s IH]; simpl; [done | by rewrite IH]. Qed.

(** ** The frame of [predict] *)

Lemma DataFrame_lookup {A} (col : list A) (k : nat) :
  DataFrame col !! k = (λ x, (k, x)) <$> col !! k.
Proof.
  unfold DataFrame. rewrite lookup_zip_with.
  destruct (col !! k) as [x|] eqn:Hk; simpl.
  - rewrite lookup_seq_lt; [done | by eapply lookup_lt_Some].
  - by destruct (seq 0 (length col) !! k).
Qed.

Lemma DataFrame_labels {A} (col : list A) : (DataFrame col).*1 = seq 0 (length col).
Proof. unfold DataFrame. rewrite fst_zip; [done | by rewrite length_seq]. Qed.

Lemma DataFrame_values {A} (col : list A) : (DataFrame col).*2 = col.
Proof. unfold DataFrame. rewrite snd_zip; [done | by rewrite length_seq]. Qed.

Lemma omap_total {A B} (f : A → option B) (l : list A) :
  Forall (λ x, is_Some (f x)) l → Forall2 (λ x y, f x = Some y) l (omap f l).
Proof.
  induction 1 as [|x l [y Hy] _ IH]; simpl; [constructor |].
  rewrite Hy. by constructor.
Qed.

Section Frames.
Context `{VZ : Vectoriser}.

Lemma order_lt (doms : list string) (k : nat) : k ∈ order doms → k < length doms.
Proof.
  intros Hk. rewrite order_perm in Hk. apply elem_of_seq in Hk. lia.
Qed.

Lemma order_length (doms : list string) : length (order doms) = length doms.
Proof. by rewrite order_perm, length_seq. Qed.

Lemma str2ascii_rows {L} (col : list (string * L)) :
  let doms := fst <$> col in
  Forall2 (λ k r, ∃ x, col !! k = Some x ∧ r = vectorise_row (max_len doms) (k, x))
          (order doms) (f_rows (str2ascii (DataFrame col))).
Proof.
  intros doms. unfold str2ascii. simpl.
  assert (Hd : (λ r : nat * (string * L), fst (snd r)) <$> DataFrame col = doms).
  { unfold doms. rewrite <-(DataFrame_values col) at 2.
    rewrite <-list_fmap_compose. done. }
  rewrite Hd. apply Forall2_fmap_r.
  eapply Forall2_impl.
  - apply omap_total. apply Forall_forall. intros k Hk.
    apply order_lt in Hk. unfold doms in Hk. rewrite length_fmap in Hk.
    rewrite DataFrame_lookup.
    destruct (lookup_lt_is_Some_2 col k Hk) as [x Hx]. rewrite Hx. by eexists.
  - intros k r Hr. simpl in Hr. rewrite DataFrame_lookup in Hr.
    destruct (col !! k) as [x|]; simplify_eq/=. eauto.
Qed.

Lemma str2ascii_rows_indexed {L} (df : Indexed (string * L)) (doms : list string) :
  (λ r, fst (snd r)) <$> df = doms →
  Forall2 (λ k r, ∃ x, df !! k = Some x ∧ r = vectorise_row (max_len doms) x)
          (order doms) (f_rows (str2ascii df)).
Proof.
  intros <-. unfold str2ascii. simpl. apply Forall2_fmap_r.
  eapply Forall2_impl.
  - apply omap_total. apply Forall_forall. intros k Hk.
    apply order_lt in Hk. rewrite length_fmap in Hk.
    by apply lookup_lt_is_Some_2.
  - intros k r Hr. simpl in Hr. eauto.
Qed.

End Frames.

Lemma domain_frame_values (domains : Domains) :
  (domain_frame domains).*2 = domain_values domains.
Proof. destruct domains as [values|rows]; simpl; [apply DataFrame_values | done]. Qed.

Lemma domain_frame_length (domains : Domains) :
  length (domain_frame domains) = length (domain_values domains).
Proof. by rewrite <-domain_frame_values, length_fmap. Qed.

Lemma domain_frame_lookup_value (domains : Domains) (k l : nat) (x : string) :
  domain_frame domains !! k = Some (l, x) → domain_values domains !! k = Some x.
Proof.
  intros Hk. rewrite <-domain_frame_values, list_lookup_fmap, Hk. done.
Qed.

Section PredictFrame.
Context `{VZ : Vectoriser}.

Lemma truncate_DataFrame {A} (truncate : nat) (col : list (string * A)) :
  truncate_domains truncate (DataFrame col)
  = DataFrame ((λ x, (slice_replace truncate "" (fst x), snd x)) <$> col).
Proof.
  apply list_eq. intros i. unfold truncate_domains.
  rewrite list_lookup_fmap, !DataFrame_lookup, list_lookup_fmap.
  by destruct (col !! i).
Qed.

Lemma predict_frame_doms (domains : Domains) (truncate : nat) :
  (λ r : nat * (string * ()), fst (snd r))
    <$> truncate_domains truncate ((λ r, (fst r, (snd r, tt))) <$> domain_frame domains)
  = truncated truncate (domain_values domains).
Proof.
  unfold truncate_domains, truncated. rewrite <-domain_frame_values.
  rewrite <-!list_fmap_compose. done.
Qed.

Lemma predict_frame_width (domains : Domains) (truncate : nat) :
  f_width (predict_frame domains truncate)
  = max_len (truncated truncate (domain_values domains)).
Proof.
  unfold predict_frame, str2ascii. simpl. by rewrite predict_frame_doms.
Qed.

(** Row [i] of the vectorised frame is the row the vectoriser took from
    position [k] of the input, under the label it had there. *)
Lemma predict_frame_rows_indexed (domains : Domains) (truncate : nat) :
  Forall2 (λ k r, ∃ l x, domain_frame domains !! k = Some (l, x)
                         ∧ r = encoded truncate (domain_values domains) l x)
          (order (truncated truncate (domain_values domains)))
          (f_rows (predict_frame domains truncate)).
Proof.
  unfold predict_frame.
  eapply Forall2_impl;
    [apply (str2ascii_rows_indexed _ _ (predict_frame_doms domains truncate)) |].
  intros k r (x & Hx & ->). unfold truncate_domains in Hx.
  rewrite <-list_fmap_compose, list_lookup_fmap in Hx.
  destruct (domain_frame domains !! k) as [[l d]|]; simplify_eq/=. by exists l, d.
Qed.

Lemma predict_frame_length (domains : Domains) (truncate : nat) :
  length (f_rows (predict_frame domains truncate)) = length (domain_values domains).
Proof.
  rewrite <-(Forall2_length _ _ _ (predict_frame_rows_indexed domains truncate)).
  rewrite order_length. unfold truncated. by rewrite length_fmap.
Qed.

Lemma predict_frame_rows (domains : list string) (truncate : nat) :
  Forall2 (λ k r, ∃ d, domains !! k = Some d ∧ r = encoded truncate domains k d)
          (order (truncated truncate domains))
          (f_rows (predict_frame (PyList domains) truncate)).
Proof.
  eapply Forall2_impl; [apply (predict_frame_rows_indexed (PyList domains)) |].
  intros k r (l & x & Hx & ->). simpl in Hx. rewrite DataFrame_lookup in Hx.
  destruct (domains !! k) as [d|]; simplify_eq/=. by exists x.
Qed.

Lemma predict_frame_labels (domains : list string) (truncate : nat) :
  v_index <$> f_rows (predict_frame (PyList domains) truncate)
  = order (truncated truncate domains).
Proof.
  pose proof (predict_frame_rows domains truncate) as H.
  induction H as [|k r ks rs (d & _ & ->) _ IH]; simpl; [done | by f_equal].
Qed.

Lemma predict_frame_row_of (domains : list string) (truncate k : nat) (d : string) :
  domains !! k = Some d →
  ∃ i, order (truncated truncate domains) !! i = Some k
       ∧ f_rows (predict_frame (PyList domains) truncate) !! i
         = Some (encoded truncate domains k d).
Proof.
  intros Hd.
  assert (Hk : k ∈ order (truncated truncate domains)).
  { rewrite order_perm. apply elem_of_seq. unfold truncated.
    rewrite length_fmap. apply lookup_lt_Some in Hd. lia. }
  apply list_elem_of_lookup in Hk as [i Hi]. exists i. split; [done |].
  destruct (Forall2_lookup_l _ _ _ _ _ (predict_frame_rows domains truncate) Hi)
    as (r & Hr & d' & Hd' & ->).
  by simplify_eq.
Qed.

(** C4. In [predict] the frame that is vectorised holds, under the label
    of each input domain, that domain cut to its leading [truncate]
    characters: a longer domain becomes exactly [truncate] characters
    long, a domain of at most [truncate] characters is left as it is. *)
Theorem predict_truncates (domains : list string) (truncate k : nat) (d : string) :
  domains !! k = Some d →
  let t := slice_replace truncate "" d in
  (∃ r, r ∈ f_rows (predict_frame (PyList domains) truncate)
        ∧ v_index r = k ∧ v_domain r = t
        ∧ v_len r = Z.of_nat (String.length t)
        ∧ take (String.length t) (v_chars r) = code_points t)
  ∧ (∃ rest, d = t +:+ rest)
  ∧ (truncate < String.length d → String.length t = truncate)
  ∧ (String.length d ≤ truncate → t = d).
Proof.
  intros Hd t. repeat split.
  - destruct (predict_frame_row_of domains truncate k d Hd) as (i & _ & Hi).
    exists (encoded truncate domains k d). split; [by eapply list_elem_of_lookup_2 |].
    unfold encoded, vectorise_row. simpl. repeat split.
    rewrite take_app_length'; [done | by rewrite code_points_length].
  - unfold t, slice_replace. rewrite string_app_empty_r. apply substring_prefix_split.
  - intros Hlt. unfold t, slice_replace.
    rewrite string_app_empty_r, substring_prefix_length. lia.
  - intros Hle. unfold t, slice_replace.
    rewrite string_app_empty_r. by apply substring_prefix_all.
Qed.

End PredictFrame.

Lemma predict_truncates_witness :
  let domains := ["averylongdomainname.com"; "ab.io"] in
  (∃ r, r ∈ f_rows (predict_frame (PyList domains) 8)
        ∧ v_index r = 0 ∧ v_domain r = "averylon"
        ∧ v_len r = 8%Z
        ∧ take 8 (v_chars r) = code_points "averylon")
  ∧ (∃ rest, "averylongdomainname.com" = "averylon" +:+ rest)
  ∧ (8 < 23 → String.length "averylon" = 8)
  ∧ (23 ≤ 8 → "averylon" = "averylongdomainname.com").
Proof.
  intros domains.
  exact (predict_truncates domains 8 0 "averylongdomainname.com" eq_refl).
Defined.

(** ** Sorting by the index *)

Lemma omap_lookup_seq_app {A} (l1 l2 : list A) :
  omap (λ k, (l1 ++ l2)%list !! k) (seq (length l1) (length l2)) = l2.
Proof.
  revert l1. induction l2 as [|x l2 IH]; intros l1; [done |].
  simpl. rewrite lookup_app_r, Nat.sub_diag by lia. simpl. f_equal.
  rewrite (cons_middle x l1 l2), (assoc_L (++)).
  replace (S (length l1)) with (length (l1 ++ [x])%list)
    by (rewrite length_app; simpl; lia).
  apply IH.
Qed.

Lemma omap_lookup_seq {A} (l : list A) : omap (λ k, l !! k) (seq 0 (length l)) = l.
Proof. apply (omap_lookup_seq_app [] l). Qed.

Lemma Forall2_omap {A B} (f : A → option B) (p : list A) (ys : list B) :
  Forall2 (λ k y, f k = Some y) p ys → omap f p = ys.
Proof.
  induction 1 as [|k y p ys Hk _ IH]; [done |].
  simpl. rewrite Hk. simpl. f_equal. exact IH.
Qed.

Lemma lookup_permutation {A} (col : list A) (p : list nat) (ys : list A) :
  Forall2 (λ k y, col !! k = Some y) p ys → p ≡ₚ seq 0 (length col) → ys ≡ₚ col.
Proof.
  intros Hall Hperm. rewrite <-(Forall2_omap _ _ _ Hall), Hperm.
  by rewrite omap_lookup_seq.
Qed.

Global Instance label_le_trans {A} : Transitive (@label_le A).
Proof. intros r1 r2 r3. unfold label_le. lia. Qed.

Global Instance label_le_total {A} : Total (@label_le A).
Proof. intros r1 r2. unfold label_le. lia. Qed.

Lemma Sorted_le_seq (j n : nat) : Sorted le (seq j n).
Proof.
  revert j. induction n as [|n IH]; intros j; simpl; constructor; [apply IH |].
  destruct n; simpl; constructor. lia.
Qed.

Lemma sort_index_labels {A} (df : Indexed A) (n : nat) :
  df.*1 ≡ₚ seq 0 n → (sort_index df).*1 = seq 0 n.
Proof.
  intros Hperm. apply (Sorted_unique le).
  - apply (Sorted_fmap fst label_le le); [done |].
    unfold sort_index. apply Sorted_merge_sort, _.
  - apply Sorted_le_seq.
  - unfold sort_index. by rewrite merge_sort_Permutation.
Qed.

Lemma sort_index_lookup {A} (df : Indexed A) (n i k : nat) (x : A) :
  df.*1 ≡ₚ seq 0 n → df !! i = Some (k, x) → sort_index df !! k = Some (k, x).
Proof.
  intros Hperm Hi.
  assert (Hin : (k, x) ∈ sort_index df).
  { unfold sort_index. rewrite merge_sort_Permutation. by eapply list_elem_of_lookup_2. }
  apply list_elem_of_lookup in Hin as [j Hj].
  assert (Hkj : (sort_index df).*1 !! j = Some k) by (by rewrite list_lookup_fmap, Hj).
  rewrite (sort_index_labels df n Hperm) in Hkj.
  apply lookup_seq in Hkj as [-> _]. done.
Qed.

Lemma sort_index_length {A} (df : Indexed A) : length (sort_index df) = length df.
Proof. unfold sort_index. by rewrite merge_sort_Permutation. Qed.

Lemma Sorted_lt_NoDup (idx : list nat) : Sorted lt idx → NoDup idx.
Proof.
  intros H. apply Sorted_StronglySorted in H; [|intros ???; lia].
  induction H as [|i idx _ IH Hall]; constructor; [|done].
  intros Hin. rewrite Forall_forall in Hall. specialize (Hall i Hin). lia.
Qed.

Lemma Sorted_lt_zip {A} (idx : list nat) (vals : list A) :
  Sorted lt idx → Sorted label_le (zip idx vals).
Proof.
  intros H. apply Sorted_StronglySorted in H; [|intros ???; lia].
  apply StronglySorted_Sorted. revert vals.
  induction H as [|i idx _ IH Hall]; intros [|v vals]; simpl; try constructor.
  - apply IH.
  - apply Forall_forall. intros [j x] Hin. apply elem_of_zip_l in Hin.
    rewrite Forall_forall in Hall. specialize (Hall j Hin).
    unfold label_le. simpl. lia.
Qed.

Lemma NoDup_labels_value {A} (df : Indexed A) (k : nat) (x1 x2 : A) :
  NoDup (df.*1) → (k, x1) ∈ df → (k, x2) ∈ df → x1 = x2.
Proof.
  intros Hnd [i Hi]%list_elem_of_lookup [j Hj]%list_elem_of_lookup.
  assert (i = j) as ->.
  { apply (NoDup_lookup (df.*1) i j k); [done | |];
      rewrite list_lookup_fmap; [by rewrite Hi | by rewrite Hj]. }
  congruence.
Qed.

(** A frame sorted by a strictly increasing index is that index with
    its values: no two rows can change places. *)
Lemma sorted_index_unique {A} (out : Indexed A) (idx : list nat) (vals : list A) :
  Sorted lt idx → length idx = length vals →
  Sorted label_le out → out ≡ₚ zip idx vals → out = zip idx vals.
Proof.
  intros Hidx Hlen Hsorted Hperm.
  apply (Sorted_unique_strong label_le); [| done | by apply Sorted_lt_zip | done].
  intros [k1 x1] [k2 x2] H1 H2 Hle1 Hle2.
  rewrite Hperm in H1. unfold label_le in Hle1, Hle2. simpl in Hle1, Hle2.
  assert (k1 = k2) as -> by lia. f_equal.
  apply (NoDup_labels_value (zip idx vals) k2); [| done | done].
  rewrite fst_zip by lia. by apply Sorted_lt_NoDup.
Qed.

Lemma Sorted_lt_seq (j n : nat) : Sorted lt (seq j n).
Proof.
  revert j. induction n as [|n IH]; intros j; simpl; constructor; [apply IH |].
  destruct n; simpl; constructor. lia.
Qed.

(** ** Padding *)

Lemma pad_row_spec (pad w : nat) (chars : list Z) :
  length chars = w → w ≤ pad →
  imap (λ j z, if decide (j < w) then default z (chars !! j) else z) (replicate pad 0%Z)
  = (chars ++ replicate (pad - w) 0%Z)%list.
Proof.
  intros Hlen Hw. apply list_eq. intros j. rewrite list_lookup_imap.
  destruct (decide (j < pad)) as [Hj|Hj].
  - rewrite lookup_replicate_2 by done. simpl. case_decide as Hjw.
    + rewrite lookup_app_l by lia.
      destruct (lookup_lt_is_Some_2 chars j) as [c ->]; [lia | done].
    + rewrite lookup_app_r by lia. by rewrite lookup_replicate_2 by lia.
  - rewrite (lookup_ge_None_2 (replicate pad 0%Z)) by (rewrite length_replicate; lia).
    simpl. symmetry. apply lookup_ge_None_2.
    rewrite length_app, length_replicate. lia.
Qed.

Lemma create_variables_inv {L} (df : Frame L) (pad : nat) input lens :
  _create_variables df pad = Ok (input, lens) →
  f_width df ≤ pad
  ∧ lens = v_len <$> f_rows df
  ∧ input = assign_block (replicate (length (f_rows df)) (replicate pad 0%Z))
                         (v_chars <$> f_rows df) (f_width df).
Proof.
  unfold _create_variables. case_decide; [|done].
  intros [= <- <-]. by rewrite length_fmap.
Qed.

Lemma create_variables_raise {L} (df : Frame L) (pad : nat) :
  pad < f_width df → _create_variables df pad = Raise ValueError.
Proof. intros Hw. unfold _create_variables. case_decide; [lia | done]. Qed.

Lemma create_variables_run {L} (df : Frame L) (pad : nat) :
  f_width df ≤ pad → ∃ input lens, _create_variables df pad = Ok (input, lens).
Proof. intros Hw. unfold _create_variables. case_decide; [eauto | lia]. Qed.


Lemma assign_block_row (n pad w i : nat) (cp : list (list Z)) (chars : list Z) :
  length cp = n → cp !! i = Some chars → length chars = w → w ≤ pad →
  assign_block (replicate n (replicate pad 0%Z)) cp w !! i
  = Some (chars ++ replicate (pad - w) 0%Z)%list.
Proof.
  intros Hn Hi Hlen Hw. unfold assign_block. rewrite lookup_zip_with.
  rewrite lookup_replicate_2 by (apply lookup_lt_Some in Hi; lia).
  simpl. rewrite Hi. simpl. by rewrite pad_row_spec.
Qed.

Lemma create_variables_row {L} (df : Frame L) (pad i : nat) input lens (r : VRow L) :
  _create_variables df pad = Ok (input, lens) →
  f_rows df !! i = Some r → length (v_chars r) = f_width df →
  input !! i = Some (v_chars r ++ replicate (pad - f_width df) 0%Z)%list
  ∧ lens !! i = Some (v_len r).
Proof.
  intros Hcv Hi Hlen. apply create_variables_inv in Hcv as (Hw & -> & ->). split.
  - apply assign_block_row; [by rewrite length_fmap | | done..].
    by rewrite list_lookup_fmap, Hi.
  - by rewrite list_lookup_fmap, Hi.
Qed.

(** ** Inference *)

Section Predict.
Context `{FW : Framework} `{VZ : Vectoriser}.

Lemma model_eval_run (s : State) m :
  model s = Some m → model_eval s = (in_eval_mode s, Ok tt).
Proof.
  intros Hm. unfold model_eval, in_eval_mode, get_model, set_model.
  unfold mbind, comp_bind, cbind. by rewrite Hm.
Qed.

Lemma model_eval_raise (s : State) :
  model s = None → model_eval s = (s, Raise AttributeError).
Proof.
  intros Hm. unfold model_eval, get_model, mbind, comp_bind, cbind. by rewrite Hm.
Qed.

Lemma call_model_run (s : State) m input lens :
  model s = Some m → call_model input lens s = (s, rnn_forward m input lens).
Proof. intros Hm. unfold call_model. by rewrite Hm. Qed.

Lemma call_model_ok (s : State) m input lens res :
  model s = Some m → rnn_forward m input lens = Ok res →
  call_model input lens s = (s, Ok res).
Proof. intros Hm Hfw. by rewrite (call_model_run s m), Hfw. Qed.

Lemma model_in_eval_mode (s : State) m :
  model s = Some m → model (in_eval_mode s) = Some (set_training false m).
Proof. intros Hm. unfold in_eval_mode. by rewrite Hm. Qed.

Lemma set_index_ok {A} (df : Indexed A) (labels : list nat) :
  length labels = length df → set_index df labels = Ok (zip labels (df.*2)).
Proof. intros Hl. unfold set_index. by case_decide. Qed.

Lemma assign_list_ok {A B} (df : Indexed A) (values : list B) :
  length values = length df →
  assign_list df values = Ok (zip_with (λ r v, (fst r, (snd r, v))) df values).
Proof. intros Hl. unfold assign_list. by case_decide. Qed.

Lemma post_rmapM (probability : bool) (res : list (list Score)) :
  (if probability then rmapM to_probability res else rmapM to_class res)
  = rmapM (post probability) res.
Proof. by destruct probability. Qed.

Lemma str_slice_replace_ok (start : nat) (df : Indexed string) :
  df ≠ [] →
  str_slice_replace start df
  = Ok ((λ r : nat * string, (fst r, slice_replace start "" (snd r))) <$> df).
Proof. by destruct df. Qed.

Lemma domain_frame_nonempty (domains : Domains) :
  domain_values domains ≠ [] → domain_frame domains ≠ [].
Proof. intros H Hnil. apply H. by rewrite <-domain_frame_values, Hnil. Qed.

(** The index of the vectorised frame: the labels of the input, in the
    order the vectoriser put the rows. *)
Lemma predict_frame_index (domains : Domains) (truncate : nat) :
  Forall2 (λ k l, (domain_frame domains).*1 !! k = Some l)
          (order (truncated truncate (domain_values domains)))
          (v_index <$> f_rows (predict_frame domains truncate)).
Proof.
  apply Forall2_fmap_r. eapply Forall2_impl; [apply predict_frame_rows_indexed |].
  intros k r (l & x & Hx & ->). rewrite list_lookup_fmap, Hx. done.
Qed.

(** One run of [predict]: with [preds] the post-processed rows of the
    network's answer, in batch order, the result holds under each label
    of the input the prediction for the domain that came with that label
    ([by_input] lists them in input order), sorted by label. *)
Lemma predict_run_indexed (s : State) m (domains : Domains) probability truncate pad
    input lens res preds :
  model s = Some m →
  domain_values domains ≠ [] →
  _create_variables (drop_columns (predict_frame domains truncate)) pad = Ok (input, lens) →
  rnn_forward (set_training false m) input lens = Ok res →
  rmapM (post probability) res = Ok preds →
  length preds = length (domain_values domains) →
  ∃ out by_input,
    predict domains probability truncate pad s = (in_eval_mode s, Ok out)
    ∧ length by_input = length (domain_values domains)
    ∧ (∀ i k, order (truncated truncate (domain_values domains)) !! i = Some k →
              by_input !! k = preds !! i)
    ∧ Sorted label_le out
    ∧ out ≡ₚ zip ((domain_frame domains).*1) by_input.
Proof.
  intros Hm Hne Hcv Hfw Hpost Hlen.
  set (n := length (domain_values domains)) in *.
  set (ord := order (truncated truncate (domain_values domains))).
  assert (Hord : length ord = n).
  { unfold ord. rewrite order_length. unfold truncated. by rewrite length_fmap. }
  assert (Hordp : ord ≡ₚ seq 0 n).
  { unfold ord. rewrite order_perm. unfold truncated. by rewrite length_fmap. }
  set (labels := v_index <$> f_rows (predict_frame domains truncate)).
  assert (Hlabels : length labels = n).
  { unfold labels. by rewrite length_fmap, predict_frame_length. }
  set (df0 := (λ r : nat * string, (fst r, slice_replace truncate "" (snd r)))
                <$> domain_frame domains).
  assert (Hdf0 : length df0 = n).
  { unfold df0. by rewrite length_fmap, domain_frame_length. }
  set (df1 := assign_aligned (zip labels (df0.*2))
                ((λ r : VRow unit, (v_index r, v_domain r))
                   <$> f_rows (predict_frame domains truncate))).
  assert (Hdf1 : df1.*1 = labels).
  { unfold df1, assign_aligned. rewrite <-list_fmap_compose.
    rewrite <-(fst_zip labels (df0.*2)) at 2 by (rewrite length_fmap; lia). done. }
  set (df2 := zip_with (λ (r : nat * option string) (v : Pred), (fst r, (snd r, v))) df1 preds).
  assert (Hlen1 : length df1 = n).
  { rewrite <-(length_fmap fst), Hdf1. done. }
  assert (Hflat : (λ r : nat * (option string * Pred), (fst r, snd (snd r))) <$> df2
                  = zip labels preds).
  { apply list_eq. intros i.
    rewrite lookup_zip_with, <-Hdf1. unfold df2.
    rewrite !list_lookup_fmap, lookup_zip_with.
    destruct (df1 !! i) as [[l x]|]; simpl; [|done]. by destruct (preds !! i). }
  set (srt := sort_index (zip ord preds)).
  assert (Hzp : (zip ord preds).*1 ≡ₚ seq 0 n) by (by rewrite fst_zip by lia).
  assert (Hsrt : length srt = n).
  { unfold srt. rewrite sort_index_length, length_zip_with. lia. }
  assert (Hby : ∀ i k, ord !! i = Some k → srt.*2 !! k = preds !! i).
  { intros i k Hi.
    destruct (lookup_lt_is_Some_2 preds i) as [v Hv].
    { apply lookup_lt_Some in Hi. lia. }
    rewrite Hv, list_lookup_fmap. unfold srt.
    rewrite (sort_index_lookup (zip ord preds) n i k v Hzp); [done |].
    by rewrite lookup_zip_with, Hi, Hv. }
  exists ((λ r : nat * (option string * Pred), (fst r, snd (snd r))) <$> sort_index df2),
         (srt.*2).
  split; [|split; [|split; [|split]]].
  - unfold predict.
    erewrite cbind_ok by (by apply (model_eval_run s m)).
    cbv zeta.
    erewrite clift_bind_ok
      by (by apply str_slice_replace_ok, domain_frame_nonempty).
    fold df0 labels.
    erewrite clift_bind_ok by (apply set_index_ok; lia).
    fold df1.
    erewrite clift_bind_ok by exact Hcv. simpl.
    erewrite cbind_ok
      by (eapply call_model_ok; [by apply model_in_eval_mode | exact Hfw]).
    rewrite post_rmapM.
    erewrite clift_bind_ok by exact Hpost.
    erewrite clift_bind_ok by (apply assign_list_ok; lia).
    done.
  - by rewrite length_fmap.
  - exact Hby.
  - apply (Sorted_fmap _ label_le label_le); [done |].
    unfold sort_index. apply Sorted_merge_sort, _.
  - unfold sort_index. rewrite merge_sort_Permutation, Hflat.
    apply (lookup_permutation _ ord).
    + apply Forall2_same_length_lookup_2.
      { rewrite length_zip_with. lia. }
      intros i k y Hi Hy. rewrite lookup_zip_with in Hy.
      destruct (Forall2_lookup_l _ _ _ _ _ (predict_frame_index domains truncate) Hi)
        as (l & Hl & Hk).
      fold labels in Hl. rewrite Hl in Hy. simpl in Hy.
      rewrite lookup_zip_with, Hk, (Hby i k Hi). simpl.
      destruct (preds !! i) as [v|]; [|done]. simpl in Hy. by injection Hy as <-.
    + rewrite length_zip_with, !length_fmap, domain_frame_length, Hsrt.
      fold n. by rewrite Nat.min_id.
Qed.

Lemma index_increasing_sorted (domains : Domains) :
  index_increasing domains → Sorted lt ((domain_frame domains).*1).
Proof.
  destruct domains as [values|rows]; simpl; [|done].
  intros _. rewrite DataFrame_labels. apply Sorted_lt_seq.
Qed.

(** When the index of the input is strictly increasing, and for a list
    in particular, sorting by label restores the input order. *)
Lemma predict_run_sorted (s : State) m (domains : Domains) probability truncate pad
    input lens res preds :
  model s = Some m →
  domain_values domains ≠ [] →
  Sorted lt ((domain_frame domains).*1) →
  _create_variables (drop_columns (predict_frame domains truncate)) pad = Ok (input, lens) →
  rnn_forward (set_training false m) input lens = Ok res →
  rmapM (post probability) res = Ok preds →
  length preds = length (domain_values domains) →
  ∃ by_input,
    predict domains probability truncate pad s
    = (in_eval_mode s, Ok (zip ((domain_frame domains).*1) by_input))
    ∧ length by_input = length (domain_values domains)
    ∧ (∀ i k, order (truncated truncate (domain_values domains)) !! i = Some k →
              by_input !! k = preds !! i).
Proof.
  intros Hm Hne Hidx Hcv Hfw Hpost Hlen.
  destruct (predict_run_indexed s m domains probability truncate pad input lens res preds
              Hm Hne Hcv Hfw Hpost Hlen)
    as (out & by_input & Hrun & Hlb & Hby & Hsorted & Hperm).
  exists by_input. split; [|done].
  rewrite Hrun. do 2 f_equal.
  apply sorted_index_unique; [done | | done | done].
  by rewrite length_fmap, domain_frame_length.
Qed.

Lemma predict_run (s : State) m (domains : list string) probability truncate pad
    input lens res preds :
  model s = Some m →
  domains ≠ [] →
  _create_variables (drop_columns (predict_frame (PyList domains) truncate)) pad
  = Ok (input, lens) →
  rnn_forward (set_training false m) input lens = Ok res →
  rmapM (post probability) res = Ok preds →
  length preds = length domains →
  ∃ out, predict (PyList domains) probability truncate pad s = (in_eval_mode s, Ok out)
         ∧ length out = length domains
         ∧ ∀ i k, order (truncated truncate domains) !! i = Some k →
                  out !! k = (λ p, (k, p)) <$> preds !! i.
Proof.
  intros Hm Hne Hcv Hfw Hpost Hlen.
  destruct (predict_run_sorted s m (PyList domains) probability truncate pad
              input lens res preds) as (by_input & Hrun & Hlb & Hby); try done.
  { simpl. rewrite DataFrame_labels. apply Sorted_lt_seq. }
  simpl in Hrun, Hlb, Hby. rewrite DataFrame_labels in Hrun.
  eexists. split; [exact Hrun |]. split.
  { rewrite length_zip_with, length_seq. lia. }
  intros i k Hi. rewrite <-(Hby i k Hi), lookup_zip_with.
  assert (Hk : k < length domains).
  { apply list_elem_of_lookup_2, order_lt in Hi. unfold truncated in Hi.
    by rewrite length_fmap in Hi. }
  rewrite lookup_seq_lt by done. simpl. by destruct (by_input !! k).
Qed.

End Predict.

Lemma cbind_inv {S A B} (c : Comp S A) (k : A → Comp S B) s s' b :
  (c ≫= k) s = (s', Ok b) → ∃ s1 a, c s = (s1, Ok a) ∧ k a s1 = (s', Ok b).
Proof.
  unfold mbind, comp_bind, cbind. destruct (c s) as [s1 [a|e]]; [eauto | done].
Qed.

Lemma clift_inv {S A} (r : result A) (s s1 : S) a :
  clift r s = (s1, Ok a) → r = Ok a.
Proof. unfold clift. by intros [= _ ->]. Qed.

Lemma set_index_length {A} (df df' : Indexed A) (labels : list nat) :
  set_index df labels = Ok df' → length df' = length df.
Proof.
  unfold set_index. case_decide as Hlen; [|done]. intros [= <-].
  rewrite length_zip_with, length_fmap. lia.
Qed.

Lemma assign_list_length {A B} (df : Indexed A) (values : list B) df' :
  assign_list df values = Ok df' → length df' = length df.
Proof.
  unfold assign_list. case_decide as Hlen; [|done]. intros [= <-].
  rewrite length_zip_with. lia.
Qed.

Lemma set_index_labels {A} (df df' : Indexed A) (labels : list nat) :
  set_index df labels = Ok df' → df'.*1 = labels.
Proof.
  unfold set_index. case_decide as Hlen; [|done]. intros [= <-].
  apply fst_zip. rewrite length_fmap. lia.
Qed.

Lemma assign_aligned_labels {A B} (df : Indexed A) (col : Indexed B) :
  (assign_aligned df col).*1 = df.*1.
Proof. unfold assign_aligned. by rewrite <-list_fmap_compose. Qed.

Lemma assign_list_labels {A B} (df : Indexed A) (values : list B) df' :
  assign_list df values = Ok df' → df'.*1 = df.*1.
Proof.
  unfold assign_list. case_decide as Hlen; [|done]. intros [= <-].
  apply list_eq. intros i. rewrite !list_lookup_fmap, lookup_zip_with.
  destruct (df !! i) as [r|] eqn:Hr; simpl; [|done].
  destruct (lookup_lt_is_Some_2 values i) as [v ->]; [|done].
  apply lookup_lt_Some in Hr. lia.
Qed.

Section PredictLength.
Context `{FW : Framework} `{VZ : Vectoriser}.

Lemma predict_length (s : State) (domains : Domains) probability truncate pad out :
  snd (predict domains probability truncate pad s) = Ok out →
  length out = length (domain_values domains).
Proof.
  destruct (predict domains probability truncate pad s) as [s' r] eqn:Hrun.
  simpl. intros ->. unfold predict in Hrun.
  apply cbind_inv in Hrun as (s1 & [] & _ & Hrun). cbv zeta in Hrun.
  apply cbind_inv in Hrun as (s2 & df0 & Hslice & Hrun). apply clift_inv in Hslice.
  apply cbind_inv in Hrun as (s3 & df & Hset & Hrun). apply clift_inv in Hset.
  apply cbind_inv in Hrun as (s4 & [input lens] & _ & Hrun).
  apply cbind_inv in Hrun as (s5 & res & _ & Hrun).
  apply cbind_inv in Hrun as (s6 & preds & _ & Hrun).
  apply cbind_inv in Hrun as (s7 & df' & Hassign & Hrun). apply clift_inv in Hassign.
  assert (Hout : out = (λ r : nat * (option string * Pred), (fst r, snd (snd r)))
                         <$> sort_index df')
    by (unfold mret, comp_ret, cret in Hrun; congruence).
  rewrite Hout, length_fmap, sort_index_length.
  rewrite (assign_list_length _ _ _ Hassign).
  unfold assign_aligned. rewrite length_fmap, (set_index_length _ _ _ Hset).
  assert (Hdf0 : length df0 = length (domain_frame domains)).
  { unfold str_slice_replace in Hslice.
    destruct (domain_frame domains) as [|r rows]; [done |].
    injection Hslice as <-. simpl. by rewrite length_fmap. }
  by rewrite Hdf0, domain_frame_length.
Qed.
End PredictLength.

Lemma max_len_ge (doms : list string) (s : string) :
  s ∈ doms → String.length s ≤ max_len doms.
Proof.
  induction 1 as [s doms|s s' doms _ IH]; simpl; lia.
Qed.

Lemma rmapM_total {A B} (f : A → result B) (l : list A) :
  Forall (λ x, ∃ y, f x = Ok y) l → ∃ l', rmapM f l = Ok l'.
Proof.
  induction 1 as [|x l [y Hy] _ [l' Hl']].
  - by exists [].
  - exists (y :: l'). apply rmapM_ok. constructor; [done | by apply rmapM_ok].
Qed.

Lemma post_total (probability : bool) (row : list Score) :
  row ≠ [] → ∃ p, post probability row = Ok p.
Proof.
  intros Hrow. destruct row as [|x row]; [done |].
  destruct probability; simpl; eauto.
Qed.

Lemma drop_columns_width {L} (df : Frame L) : f_width (drop_columns df) = f_width df.
Proof. done. Qed.

Lemma drop_columns_lookup {L} (df : Frame L) (i : nat) (r : VRow L) :
  f_rows df !! i = Some r →
  f_rows (drop_columns df) !! i = Some (mkVRow (v_index r) "" tt (v_len r) (v_chars r)).
Proof. intros Hr. unfold drop_columns. simpl. by rewrite list_lookup_fmap, Hr. Qed.

Section PredictOrder.
Context `{FW : Framework} `{VZ : Vectoriser}.

Lemma predict_frame_row_at (domains : Domains) (truncate k l : nat) (d : string) :
  domain_frame domains !! k = Some (l, d) →
  ∃ i, order (truncated truncate (domain_values domains)) !! i = Some k
       ∧ f_rows (predict_frame domains truncate) !! i
         = Some (encoded truncate (domain_values domains) l d).
Proof.
  intros Hd.
  assert (Hk : k ∈ order (truncated truncate (domain_values domains))).
  { rewrite order_perm. apply elem_of_seq. unfold truncated.
    rewrite length_fmap, <-domain_frame_length. apply lookup_lt_Some in Hd. lia. }
  apply list_elem_of_lookup in Hk as [i Hi]. exists i. split; [done |].
  destruct (Forall2_lookup_l _ _ _ _ _ (predict_frame_rows_indexed domains truncate) Hi)
    as (r & Hr & l' & d' & Hd' & ->).
  by simplify_eq.
Qed.

(** Row [i] of the batch is the encoding of the domain whose position
    the vectoriser put at position [i]. *)
Lemma predict_batch_row (domains : Domains) truncate pad input lens k d :
  _create_variables (drop_columns (predict_frame domains truncate)) pad = Ok (input, lens) →
  domain_values domains !! k = Some d →
  let t := slice_replace truncate "" d in
  ∃ i, order (truncated truncate (domain_values domains)) !! i = Some k
       ∧ input !! i = Some (code_points t ++ replicate (pad - String.length t) 0%Z)%list
       ∧ lens !! i = Some (Z.of_nat (String.length t)).
Proof.
  intros Hcv Hd t.
  assert (Hrow0 : ∃ l, domain_frame domains !! k = Some (l, d)).
  { rewrite <-domain_frame_values, list_lookup_fmap in Hd.
    destruct (domain_frame domains !! k) as [[l d']|]; simplify_eq/=. by exists l. }
  destruct Hrow0 as [l Hrow0].
  destruct (predict_frame_row_at domains truncate k l d Hrow0) as (i & Hi & Hrow).
  exists i. split; [done |].
  set (w := max_len (truncated truncate (domain_values domains))).
  assert (Ht : String.length t ≤ w).
  { apply max_len_ge. unfold truncated. apply list_elem_of_fmap.
    exists d. split; [done | by eapply list_elem_of_lookup_2]. }
  pose proof (create_variables_inv _ _ _ _ Hcv) as (Hw & _ & _).
  rewrite drop_columns_width, predict_frame_width in Hw. fold w in Hw.
  edestruct (create_variables_row (drop_columns (predict_frame domains truncate))
               pad i input lens) as [Hin Hl];
    [exact Hcv | exact (drop_columns_lookup _ _ _ Hrow) | | ].
  - rewrite drop_columns_width, predict_frame_width. unfold encoded, vectorise_row. simpl.
    rewrite length_app, code_points_length, length_replicate. fold t w. lia.
  - rewrite drop_columns_width, predict_frame_width in Hin.
    unfold encoded, vectorise_row in Hin, Hl. simpl in Hin, Hl. fold t w in Hin.
    split; [|done]. rewrite Hin, <-(assoc_L (++)), <-replicate_add.
    do 3 f_equal. lia.
Qed.

Lemma predict_aligned_sorted (s : State) m (domains : Domains) probability truncate pad
    input lens res :
  model s = Some m →
  domain_values domains ≠ [] →
  Sorted lt ((domain_frame domains).*1) →
  _create_variables (drop_columns (predict_frame domains truncate)) pad = Ok (input, lens) →
  rnn_forward (set_training false m) input lens = Ok res →
  length res = length (domain_values domains) →
  Forall (λ row, row ≠ []) res →
  ∃ by_input,
    snd (predict domains probability truncate pad s)
    = Ok (zip ((domain_frame domains).*1) by_input)
    ∧ length by_input = length (domain_values domains)
    ∧ ∀ k d, domain_values domains !! k = Some d →
        let t := slice_replace truncate "" d in
        ∃ i row p,
          input !! i = Some (code_points t ++ replicate (pad - String.length t) 0%Z)%list
          ∧ lens !! i = Some (Z.of_nat (String.length t))
          ∧ res !! i = Some row
          ∧ post probability row = Ok p
          ∧ by_input !! k = Some p.
Proof.
  intros Hm Hne Hidx Hcv Hfw Hlen Hrows.
  destruct (rmapM_total (post probability) res) as [preds Hpreds].
  { eapply Forall_impl; [exact Hrows |]. intros row. apply post_total. }
  pose proof (proj1 (rmapM_ok _ _ _) Hpreds) as Hall.
  assert (Hlp : length preds = length (domain_values domains)).
  { by rewrite <-(Forall2_length _ _ _ Hall). }
  destruct (predict_run_sorted s m domains probability truncate pad input lens res preds
              Hm Hne Hidx Hcv Hfw Hpreds Hlp) as (by_input & Hrun & Hlb & Halign).
  exists by_input. rewrite Hrun. repeat split; [done |].
  intros k d Hd t.
  destruct (predict_batch_row domains truncate pad input lens k d Hcv Hd)
    as (i & Hi & Hin & Hl).
  destruct (lookup_lt_is_Some_2 res i) as [row Hrow].
  { apply lookup_lt_Some in Hi. rewrite order_length in Hi.
    unfold truncated in Hi. rewrite length_fmap in Hi. lia. }
  destruct (Forall2_lookup_l _ _ _ _ _ Hall Hrow) as (p & Hp & Hpost).
  exists i, row, p. repeat split; try done.
  by rewrite (Halign i k Hi).
Qed.

Lemma predict_aligned (s : State) m (domains : list string) probability truncate pad
    input lens res :
  model s = Some m →
  domains ≠ [] →
  _create_variables (drop_columns (predict_frame (PyList domains) truncate)) pad
  = Ok (input, lens) →
  rnn_forward (set_training false m) input lens = Ok res →
  length res = length domains →
  Forall (λ row, row ≠ []) res →
  ∃ out, snd (predict (PyList domains) probability truncate pad s) = Ok out
    ∧ length out = length domains
    ∧ ∀ k d, domains !! k = Some d →
        let t := slice_replace truncate "" d in
        ∃ i row p,
          input !! i = Some (code_points t ++ replicate (pad - String.length t) 0%Z)%list
          ∧ lens !! i = Some (Z.of_nat (String.length t))
          ∧ res !! i = Some row
          ∧ post probability row = Ok p
          ∧ out !! k = Some (k, p).
Proof.
  intros Hm Hne Hcv Hfw Hlen Hrows.
  destruct (predict_aligned_sorted s m (PyList domains) probability truncate pad
              input lens res) as (by_input & Hrun & Hlb & Halign); try done.
  { simpl. rewrite DataFrame_labels. apply Sorted_lt_seq. }
  simpl in Hrun, Hlb, Halign. rewrite DataFrame_labels in Hrun.
  eexists. split; [exact Hrun |]. split.
  { rewrite length_zip_with, length_seq. lia. }
  intros k d Hd t.
  destruct (Halign k d Hd) as (i & row & p & Hin & Hl & Hrow & Hpost & Hk).
  exists i, row, p. repeat split; try done.
  rewrite lookup_zip_with, Hk, lookup_seq_lt by (by eapply lookup_lt_Some). done.
Qed.

(** An empty list gives a frame whose [domain] column is not a string
    column: line 173 raises, also on a detector with a model. *)
Lemma predict_empty_list (s : State) probability truncate pad :
  snd (predict (PyList []) probability truncate pad s) = Raise AttributeError.
Proof.
  unfold predict. destruct (model s) as [m|] eqn:Hm.
  - erewrite cbind_ok by (by apply (model_eval_run s m)). done.
  - erewrite cbind_raise by (by apply model_eval_raise). done.
Qed.

(** X14. [predict] never returns a series whose length differs from the
    number of domains.  For a non-empty list of domains, and for a
    series of domains whose index is strictly increasing, when the
    padded batch can be built and the network answers with one non-empty
    row of scores per row of the batch, [predict] does return: a series
    under the index of the input, whose value at position [k] is
    computed from the row of scores the network gave for the row that
    encodes the domain at position [k], whatever order the vectoriser put
    the rows in. *)
Theorem predict_keeps_input_order (s : State) (domains : Domains)
    probability truncate pad :
  (∀ out, snd (predict domains probability truncate pad s) = Ok out →
          length out = length (domain_values domains))
  ∧ (∀ m input lens res,
       model s = Some m →
       domain_values domains ≠ [] →
       index_increasing domains →
       _create_variables (drop_columns (predict_frame domains truncate)) pad
       = Ok (input, lens) →
       rnn_forward (set_training false m) input lens = Ok res →
       length res = length (domain_values domains) →
       Forall (λ row, row ≠ []) res →
       ∃ by_input,
         snd (predict domains probability truncate pad s)
         = Ok (zip ((domain_frame domains).*1) by_input)
         ∧ length by_input = length (domain_values domains)
         ∧ ∀ k d, domain_values domains !! k = Some d →
             let t := slice_replace truncate "" d in
             ∃ i row p,
               input !! i
               = Some (code_points t ++ replicate (pad - String.length t) 0%Z)%list
               ∧ lens !! i = Some (Z.of_nat (String.length t))
               ∧ res !! i = Some row
               ∧ post probability row = Ok p
               ∧ by_input !! k = Some p).
Proof.
  split; [intros out; apply predict_length | intros m input lens res].
  intros Hm Hne Hidx. apply predict_aligned_sorted; [done | done |].
  by apply index_increasing_sorted.
Qed.

(** X15. Whatever the input, a result of [predict] is sorted by index
    label, and its labels are the labels of the input: for a series
    whose index is not increasing the rows come back in label order, not
    in input order. *)
Theorem predict_sorted_by_label (s : State) (domains : Domains)
    probability truncate pad out :
  snd (predict domains probability truncate pad s) = Ok out →
  Sorted label_le out ∧ out.*1 ≡ₚ (domain_frame domains).*1.
Proof.
  destruct (predict domains probability truncate pad s) as [s' r] eqn:Hrun.
  simpl. intros ->. unfold predict in Hrun.
  apply cbind_inv in Hrun as (s1 & [] & _ & Hrun). cbv zeta in Hrun.
  apply cbind_inv in Hrun as (s2 & df0 & _ & Hrun).
  apply cbind_inv in Hrun as (s3 & df & Hset & Hrun). apply clift_inv in Hset.
  apply cbind_inv in Hrun as (s4 & [input lens] & _ & Hrun).
  apply cbind_inv in Hrun as (s5 & res & _ & Hrun).
  apply cbind_inv in Hrun as (s6 & preds & _ & Hrun).
  apply cbind_inv in Hrun as (s7 & df' & Hassign & Hrun). apply clift_inv in Hassign.
  assert (Hout : out = (λ r : nat * (option string * Pred), (fst r, snd (snd r)))
                         <$> sort_index df')
    by (unfold mret, comp_ret, cret in Hrun; congruence).
  split.
  - rewrite Hout. apply (Sorted_fmap _ label_le label_le); [done |].
    unfold sort_index. apply Sorted_merge_sort, _.
  - rewrite Hout, <-list_fmap_compose.
    change ((sort_index df').*1 ≡ₚ (domain_frame domains).*1).
    unfold sort_index. rewrite merge_sort_Permutation.
    rewrite (assign_list_labels _ _ _ Hassign), assign_aligned_labels.
    rewrite (set_index_labels _ _ _ Hset).
    apply (lookup_permutation _ (order (truncated truncate (domain_values domains)))).
    + apply predict_frame_index.
    + rewrite order_perm, length_fmap, domain_frame_length.
      unfold truncated. by rewrite length_fmap.
Qed.

End PredictOrder.

Lemma predict_keeps_input_order_witness :
  ∃ by_input,
    snd (predict (FW := toy) (Series [(3, "nvidia.com"); (5, "dgadomain"); (7, "a")])
           false 100 12 toy_state)
    = Ok (zip [3; 5; 7] by_input) ∧ length by_input = 3.
Proof.
  pose (domains := Series [(3, "nvidia.com"); (5, "dgadomain"); (7, "a")]).
  pose (m := RNNClassifier_new (FW := toy) 128 100 2 3).
  eassert (Hcv : _create_variables (drop_columns (predict_frame domains 100)) 12
                 = Ok (_, _)) by (vm_compute; reflexivity).
  match type of Hcv with
  | _ = Ok (?i, ?l) =>
      assert (Hfw : rnn_forward (set_training false m) i l = Ok (toy_scores 5 <$> l))
        by (vm_compute; reflexivity)
  end.
  assert (Hne : domain_values domains ≠ []) by discriminate.
  assert (Hidx : index_increasing domains) by (repeat constructor).
  destruct (proj2 (predict_keeps_input_order (FW := toy) toy_state domains false 100 12)
              m _ _ _ eq_refl Hne Hidx Hcv Hfw)
    as (by_input & Hrun & Hlen & _).
  - reflexivity.
  - repeat constructor; discriminate.
  - exists by_input. split; [exact Hrun | exact Hlen].
Defined.

Lemma predict_sorted_by_label_witness :
  let out := [(3, Class 1); (5, Class 1); (7, Class 0)] in
  Sorted label_le out ∧ out.*1 ≡ₚ [7; 3; 5].
Proof.
  exact (predict_sorted_by_label (FW := toy) toy_state
           (Series [(7, "ab"); (3, "abcdefgh"); (5, "abcd")]) false 100 12 _ eq_refl).
Defined.

(** C1. The results come back sorted by index label, not in input
    order: for a series of three domains under the labels 7, 3, 5 the
    one-domain answers are 0, 1, 1 in input order, and [predict] returns
    them as 1, 1, 0 (labels 3, 5, 7); for an empty list it returns
    nothing at all, line 173 raises.  The comment of line 175 announces
    results "as per the given input order". *)
Theorem predict_returns_label_order :
  let run (domains : Domains) :=
    snd (predict (FW := toy) domains false 100 12 toy_state) in
  run (Series [(7, "ab"); (3, "abcdefgh"); (5, "abcd")])
  = Ok [(3, Class 1); (5, Class 1); (7, Class 0)]
  ∧ run (Series [(7, "ab")]) = Ok [(7, Class 0)]
  ∧ run (Series [(3, "abcdefgh")]) = Ok [(3, Class 1)]
  ∧ run (Series [(5, "abcd")]) = Ok [(5, Class 1)]
  ∧ run (PyList ["ab"; "abcdefgh"; "abcd"])
    = Ok [(0, Class 0); (1, Class 1); (2, Class 1)]
  ∧ ∀ (FW : Framework) (VZ : Vectoriser) (s : State) probability truncate pad,
      snd (predict (PyList []) probability truncate pad s) = Raise AttributeError.
Proof.
  repeat split; try (vm_compute; reflexivity).
  intros FW VZ s probability truncate pad. apply predict_empty_list.
Qed.

(** ** The two kinds of result *)

Lemma score_le_refl (x : Score) : score_le x x = true.
Proof. destruct x; simpl; try done. apply Qle_bool_iff, Qle_refl. Qed.

Lemma score_le_trans (x y z : Score) :
  score_le x y = true → score_le y z = true → score_le x z = true.
Proof.
  destruct x, y, z; simpl; try done.
  rewrite !Qle_bool_iff. apply Qle_trans.
Qed.

Lemma score_le_total (x y : Score) : score_le x y = false → score_le y x = true.
Proof.
  destruct x, y; simpl; try done.
  intros Hxy. apply Qle_bool_iff, Qlt_le_weak, Qnot_le_lt.
  intros Hc. apply Qle_bool_iff in Hc. congruence.
Qed.

Lemma score_lt_trans (x y z : Score) :
  score_le x y = true → score_le z y = false → score_le z x = false.
Proof.
  intros Hxy Hzy. destruct (score_le z x) eqn:Hzx; [|done].
  by rewrite (score_le_trans z x y Hzx Hxy) in Hzy.
Qed.

Lemma argmax_from_spec (pre row : list Score) (best_i : nat) (best : Score) :
  pre !! best_i = Some best →
  (∀ j x, pre !! j = Some x → score_le x best = true) →
  (∀ j x, j < best_i → pre !! j = Some x → score_le best x = false) →
  first_max (pre ++ row)%list (argmax_from best_i best (length pre) row).
Proof.
  revert pre best_i best. induction row as [|x row IH]; intros pre best_i best Hb Hle Hlt.
  - simpl. rewrite (right_id_L [] (++)). by exists best.
  - simpl. rewrite (cons_middle x pre row), (assoc_L (++)).
    replace (S (length pre)) with (length (pre ++ [x])%list)
      by (rewrite length_app; simpl; lia).
    destruct (score_le x best) eqn:Hx.
    + apply IH.
      * rewrite lookup_app_l; [done | by eapply lookup_lt_Some].
      * intros j y Hj. apply lookup_app_Some in Hj as [Hj|[_ Hj]]; [by eapply Hle |].
        apply list_lookup_singleton_Some in Hj as [_ <-]. done.
      * intros j y Hjb Hj. apply lookup_app_Some in Hj as [Hj|[Hge _]]; [by eapply Hlt |].
        apply lookup_lt_Some in Hb. lia.
    + apply IH.
      * rewrite lookup_app_r by lia. by rewrite Nat.sub_diag.
      * intros j y Hj. apply lookup_app_Some in Hj as [Hj|[_ Hj]].
        -- eapply score_le_trans; [by eapply Hle | by apply score_le_total].
        -- apply list_lookup_singleton_Some in Hj as [_ <-]. apply score_le_refl.
      * intros j y Hjb Hj. rewrite lookup_app_l in Hj by done.
        eapply score_lt_trans; [by eapply Hle | done].
Qed.

Lemma argmax_spec (row : list Score) (c : nat) : argmax row = Ok c → first_max row c.
Proof.
  destruct row as [|x row]; [done |]. simpl. intros [= <-].
  apply (argmax_from_spec [x] row 0 x); [done | |].
  - intros j y Hj. apply list_lookup_singleton_Some in Hj as [_ <-]. apply score_le_refl.
  - intros j y Hj. lia.
Qed.

Lemma first_max_lt (row : list Score) (c : nat) : first_max row c → c < length row.
Proof. intros (b & Hb & _). by eapply lookup_lt_Some. Qed.

Lemma sigmoid_bounds (x : R) : (0 < sigmoid x < 1)%R.
Proof.
  unfold sigmoid. pose proof (exp_pos (- x)) as Hexp.
  split.
  - apply Rdiv_lt_0_compat; lra.
  - apply (Rmult_lt_reg_r (1 + exp (- x))); [lra |].
    unfold Rdiv. rewrite Rmult_assoc, Rinv_l by lra. lra.
Qed.


(** The value of [torch.sigmoid] is a number in [[0, 1]] for every score
    but a NaN. *)
Lemma torch_sigmoid_range (x : Score) :
  (x = NaN ∧ torch_sigmoid x = NotANumber)
  ∨ (x ≠ NaN ∧ ∃ r, torch_sigmoid x = Real r ∧ (0 <= r <= 1)%R).
Proof.
  destruct x as [q| | |]; simpl; [| | | by left]; right; (split; [done |]).
  - eexists. split; [done |]. pose proof (sigmoid_bounds (Q2R q)). lra.
  - exists 1%R. split; [done | lra].
  - exists 0%R. split; [done | lra].
Qed.

Lemma to_probability_inv (row : list Score) (p : Pred) :
  to_probability row = Ok p → ∃ x, row !! 0 = Some x ∧ p = Prob (torch_sigmoid x).
Proof. destruct row as [|x row]; [done |]. intros [= <-]. by exists x. Qed.

Lemma to_class_inv (row : list Score) (p : Pred) :
  to_class row = Ok p → ∃ c, first_max row c ∧ p = Class c.
Proof.
  unfold to_class, mbind, result_bind, rbind.
  destruct (argmax row) as [c|e] eqn:Hc; [|done].
  intros [= <-]. exists c. split; [by apply argmax_spec | done].
Qed.

Section PredictResults.
Context `{FW : Framework} `{VZ : Vectoriser}.


End PredictResults.



Section PredictRanges.
Context `{FW : Framework} `{VZ : Vectoriser}.

Lemma init_model_output_size (s : State) char_vocab hidden n_domain_type layers :
  model s = None →
  output_size <$> model (fst (init_model char_vocab hidden n_domain_type layers s))
  = Some n_domain_type.
Proof.
  intros Hm. unfold init_model.
  erewrite cbind_ok by reflexivity. by rewrite Hm.
Qed.

(** C7 (as the code has it). [init_model] fixes the model's
    [output_size] to [n_domain_type].  When the network answers with one
    row of [output_size] scores per row of the batch of a non-empty
    list, every class [predict] returns is below [output_size], and the
    probability it returns for a domain lies in [[0, 1]] unless the
    network's score for that domain (column 0 of its row) is a NaN: then
    the probability is a NaN as well. *)
Theorem predict_result_ranges (s : State) (domains : list string) probability
    truncate pad :
  (∀ s0 char_vocab hidden n_domain_type layers,
     model s0 = None →
     output_size <$> model (fst (init_model char_vocab hidden n_domain_type layers s0))
     = Some n_domain_type)
  ∧ (∀ m input lens res,
       model s = Some m →
       domains ≠ [] →
       _create_variables (drop_columns (predict_frame (PyList domains) truncate)) pad
       = Ok (input, lens) →
       rnn_forward (set_training false m) input lens = Ok res →
       length res = length domains →
       0 < output_size m →
       Forall (λ row, length row = output_size m) res →
       ∃ out, snd (predict (PyList domains) probability truncate pad s) = Ok out
         ∧ length out = length domains
         ∧ ∀ k d, domains !! k = Some d →
             let t := slice_replace truncate "" d in
             ∃ i row p,
               input !! i
               = Some (code_points t ++ replicate (pad - String.length t) 0%Z)%list
               ∧ res !! i = Some row
               ∧ out !! k = Some (k, p)
               ∧ if probability
                 then (row !! 0 = Some NaN ∧ p = Prob NotANumber)
                      ∨ (row !! 0 ≠ Some NaN
                         ∧ ∃ x, p = Prob (Real x) ∧ (0 <= x <= 1)%R)
                 else ∃ c, p = Class c ∧ c < output_size m).
Proof.
  split; [intros s0 char_vocab hidden n_domain_type layers; apply init_model_output_size |].
  intros m input lens res Hm Hne Hcv Hfw Hlen Hpos Hwidth.
  assert (Hrows : Forall (λ row : list Score, row ≠ []) res).
  { eapply Forall_impl; [exact Hwidth |]. intros [|x row]; simpl; [lia | done]. }
  destruct (predict_aligned s m domains probability truncate pad input lens res
              Hm Hne Hcv Hfw Hlen Hrows) as (out & Hrun & Hout & Halign).
  exists out. split; [done |]. split; [done |].
  intros k d Hd t.
  destruct (Halign k d Hd) as (i & row & p & Hin & _ & Hrow & Hpost & Hk).
  exists i, row, p. repeat split; try done.
  destruct probability; simpl in Hpost.
  - apply to_probability_inv in Hpost as (x & Hx & ->). rewrite Hx.
    destruct (torch_sigmoid_range x) as [[-> ->]|(Hnan & r & -> & Hr)].
    + by left.
    + right. split; [congruence | by exists r].
  - apply to_class_inv in Hpost as (c & Hc & ->).
    exists c. split; [done |].
    rewrite <-(proj1 (Forall_lookup _ _) Hwidth i row Hrow).
    by apply first_max_lt.
Qed.

End PredictRanges.

Lemma predict_result_ranges_witness :
  ∃ out p,
    snd (predict (FW := toy) (PyList ["nvidia.com"; "ab"]) true 100 12 toy_state) = Ok out
    ∧ length out = 2
    ∧ out !! 1 = Some (1, p)
    ∧ (p = Prob NotANumber ∨ ∃ x, p = Prob (Real x) ∧ (0 <= x <= 1)%R).
Proof.
  pose (domains := ["nvidia.com"; "ab"]).
  pose (m := RNNClassifier_new (FW := toy) 128 100 2 3).
  eassert (Hcv : _create_variables (drop_columns (predict_frame (PyList domains) 100)) 12
                 = Ok (_, _)) by (vm_compute; reflexivity).
  match type of Hcv with
  | _ = Ok (?i, ?l) =>
      assert (Hfw : rnn_forward (set_training false m) i l = Ok (toy_scores 5 <$> l))
        by (vm_compute; reflexivity)
  end.
  assert (Hne : domains ≠ []) by discriminate.
  destruct (proj2 (predict_result_ranges (FW := toy) toy_state domains true 100 12)
              m _ _ _ eq_refl Hne Hcv Hfw)
    as (out & Hrun & Hlen & Hall).
  - reflexivity.
  - simpl. lia.
  - repeat constructor.
  - destruct (Hall 1 "ab" eq_refl) as (i & row & p & _ & _ & Hk & Hp).
    exists out, p. split; [exact Hrun |]. split; [exact Hlen |]. split; [exact Hk |].
    destruct Hp as [[_ Hp]|[_ Hp]]; [by left | by right].
Defined.

(** With a network that answers NaN, the probability [predict] returns
    is a NaN: no number of [[0, 1]]. *)
Lemma predict_probability_not_a_number :
  snd (predict (FW := nan_net) (PyList ["ab"]) true 100 8 nan_state)
  = Ok [(0, Prob NotANumber)]
  ∧ ¬ (∃ x, Prob NotANumber = Prob (Real x) ∧ (0 <= x <= 1)%R).
Proof.
  split; [reflexivity |]. by intros (x & Hx & _).
Qed.

(** ** What [predict] changes *)

Section PredictFrameCondition.
Context `{FW : Framework} `{VZ : Vectoriser}.

Lemma model_reader_ret {A} (a : A) : model_reader (mret a).
Proof. intros s. split; done. Qed.

Lemma model_reader_clift {A} (r : result A) : model_reader (clift r).
Proof. intros s. split; done. Qed.

Lemma model_reader_call_model input lens : model_reader (call_model input lens).
Proof.
  intros s. unfold call_model. split.
  - by destruct (model s).
  - intros s' Hs'. rewrite Hs'. by destruct (model s).
Qed.

Lemma model_reader_bind {A B} (c : Comp State A) (k : A → Comp State B) :
  model_reader c → (∀ a, model_reader (k a)) → model_reader (c ≫= k).
Proof.
  intros Hc Hk s. unfold mbind, comp_bind, cbind.
  destruct (Hc s) as [Hfst Hsnd]. split.
  - destruct (c s) as [s1 [a|e]] eqn:Hcs; simpl in Hfst; subst s1; [|done].
    apply Hk.
  - intros s' Hs'. specialize (Hsnd s' Hs').
    destruct (Hc s') as [Hfst' _].
    destruct (c s) as [s1 [a|e]] eqn:Hcs, (c s') as [s1' [a'|e']] eqn:Hcs';
      simpl in *; simplify_eq; [|done].
    by apply Hk.
Qed.

(** What [predict] does once the model is in evaluation mode. *)
Lemma predict_reads_model domains probability truncate pad :
  ∃ rest : Comp State (Indexed Pred),
    model_reader rest
    ∧ predict domains probability truncate pad = (model_eval ≫= λ _, rest).
Proof.
  eexists. split; [|reflexivity]. cbv zeta.
  repeat first
    [ apply model_reader_ret
    | apply model_reader_clift
    | apply model_reader_call_model
    | apply model_reader_bind; [|intros ?]
    | match goal with |- model_reader (match ?x with _ => _ end) => destruct x end ].
Qed.

Lemma predict_state (s : State) domains probability truncate pad :
  fst (predict domains probability truncate pad s) = in_eval_mode s.
Proof.
  destruct (predict_reads_model domains probability truncate pad) as (rest & Hrest & ->).
  destruct (model s) as [m|] eqn:Hm.
  - erewrite cbind_ok by (by apply (model_eval_run s m)). apply Hrest.
  - erewrite cbind_raise by (by apply model_eval_raise).
    unfold in_eval_mode. by rewrite Hm.
Qed.

Lemma predict_result_model (s s' : State) domains probability truncate pad :
  model (in_eval_mode s') = model (in_eval_mode s) →
  snd (predict domains probability truncate pad s')
  = snd (predict domains probability truncate pad s).
Proof.
  intros Heq.
  destruct (predict_reads_model domains probability truncate pad) as (rest & Hrest & ->).
  destruct (model s) as [m|] eqn:Hm, (model s') as [m'|] eqn:Hm'.
  - erewrite !cbind_ok by (by eapply model_eval_run). by apply Hrest.
  - unfold in_eval_mode in Heq. rewrite Hm, Hm' in Heq. simpl in Heq. congruence.
  - unfold in_eval_mode in Heq. rewrite Hm, Hm' in Heq. simpl in Heq. congruence.
  - by erewrite !cbind_raise by (by apply model_eval_raise).
Qed.

(** C10. Whatever the input and whether or not it succeeds, [predict]
    leaves the detector as it was, except that the model is in evaluation
    mode: parameters, architecture, optimizer and saved files are those
    from before the call. *)
Theorem predict_keeps_parameters (s : State) domains probability truncate pad :
  let s' := fst (predict domains probability truncate pad s) in
  s' = in_eval_mode s
  ∧ state_dict <$> model s' = state_dict <$> model s
  ∧ output_size <$> model s' = output_size <$> model s
  ∧ optimizer s' = optimizer s
  ∧ files s' = files s.
Proof.
  intros s'. unfold s'. rewrite predict_state. unfold in_eval_mode.
  destruct (model s) as [m|] eqn:Hm; simpl; rewrite ?Hm; done.
Qed.

End PredictFrameCondition.

(** Training, by contrast, does move the parameters: one epoch over one
    batch steps the toy optimizer once. *)
Example train_changes_parameters :
  let s' := fst (train_model (FW := toy) ["ab"; "abcd"; "xyz"; "q"] [0; 1; 1; 0]%Z
                   2 1 (1 # 2)%Q 100 8 toy_state) in
  state_dict <$> model toy_state = Some 5%Z ∧ state_dict <$> model s' = Some 6%Z.
Proof. split; reflexivity. Qed.

(** ** Checkpoints *)

Section Checkpoints.
Context `{FW : Framework} `{VZ : Vectoriser}.

Lemma save_checkpoint_run (s : State) m (file_path : string) :
  model s = Some m →
  save_checkpoint file_path s
  = (mkState (Some m) (optimizer s)
       (<[file_path := mkCheckpoint (state_dict m) (input_size m) (hidden_size m)
                         (n_layers m) (output_size m)]> (files s)),
     Ok tt).
Proof.
  intros Hm. unfold save_checkpoint.
  erewrite cbind_ok by (unfold get_model; by rewrite Hm).
  unfold _save_checkpoint. by rewrite Hm.
Qed.

Lemma save_checkpoint_raise (s : State) (file_path : string) :
  model s = None → save_checkpoint file_path s = (s, Raise AttributeError).
Proof.
  intros Hm. unfold save_checkpoint.
  by erewrite cbind_raise by (unfold get_model; by rewrite Hm).
Qed.

Lemma load_checkpoint_run (s : State) (file_path : string) (c : Checkpoint) :
  files s !! file_path = Some c →
  let m := mkRNN (ck_input_size c) (ck_hidden_size c) (ck_output_size c) (ck_n_layers c)
                 (ck_state_dict c) true in
  load_checkpoint file_path s = (mkState (Some m) (Some (new_optimizer m)) (files s), Ok tt).
Proof.
  intros Hc m. unfold load_checkpoint.
  erewrite cbind_ok by (unfold torch_load; by rewrite Hc).
  done.
Qed.

(** C2. Saving an initialised detector to a path succeeds; loading that
    path afterwards succeeds on the detector that saved and on any other
    detector that reads the same files, whatever model it held or none:
    the load rebuilds the network from the file, with the saved
    architecture and parameters, and the detector obtained answers every
    [predict] call exactly as the detector that was saved. *)
Theorem checkpoint_round_trip (s : State) m (file_path : string) :
  model s = Some m →
  ∃ s1,
    save_checkpoint file_path s = (s1, Ok tt)
    ∧ ∀ s', files s' = files s1 →
        ∃ s2,
          load_checkpoint file_path s' = (s2, Ok tt)
          ∧ model s2 = Some (mkRNN (input_size m) (hidden_size m) (output_size m)
                               (n_layers m) (state_dict m) true)
          ∧ ∀ domains probability truncate pad,
              snd (predict domains probability truncate pad s2)
              = snd (predict domains probability truncate pad s).
Proof.
  intros Hm. eexists. split; [by apply save_checkpoint_run |].
  intros s' Hfiles. eexists. split.
  - apply load_checkpoint_run. rewrite Hfiles. simpl. apply lookup_insert_eq.
  - simpl. split; [done |].
    intros domains probability truncate pad.
    apply predict_result_model. unfold in_eval_mode. simpl. rewrite Hm. simpl.
    by destruct m.
Qed.

End Checkpoints.

Lemma checkpoint_round_trip_witness :
  ∃ s1 s2 s3,
    save_checkpoint (FW := toy) "dga.pth" toy_state = (s1, Ok tt)
    ∧ load_checkpoint "dga.pth" s1 = (s2, Ok tt)
    ∧ load_checkpoint "dga.pth" (@mkState toy None None (files s1)) = (s3, Ok tt)
    ∧ model s3 = Some (mkRNN 128 100 2 3 5%Z true)
    ∧ snd (predict (PyList ["nvidia.com"; "ab"]) false 100 12 s2)
      = snd (predict (PyList ["nvidia.com"; "ab"]) false 100 12 toy_state)
    ∧ snd (predict (PyList ["nvidia.com"; "ab"]) false 100 12 s3)
      = snd (predict (PyList ["nvidia.com"; "ab"]) false 100 12 toy_state).
Proof.
  destruct (checkpoint_round_trip (FW := toy) toy_state
              (RNNClassifier_new (FW := toy) 128 100 2 3) "dga.pth" eq_refl)
    as (s1 & Hsave & Hload).
  destruct (Hload s1 eq_refl) as (s2 & Hload2 & _ & Hsame2).
  destruct (Hload (@mkState toy None None (files s1)) eq_refl)
    as (s3 & Hload3 & Hmodel3 & Hsame3).
  exists s1, s2, s3. split; [exact Hsave |]. split; [exact Hload2 |].
  split; [exact Hload3 |]. split; [exact Hmodel3 |].
  split; [apply Hsame2 | apply Hsame3].
Defined.

(** ** Batches *)

Section Batches.
Context `{VZ : Vectoriser}.






End Batches.


(** ** Evaluation *)

Lemma matches_app (p1 p2 : list nat) (l1 l2 : list Z) :
  length p1 = length l1 →
  matches (p1 ++ p2) (l1 ++ l2) = matches p1 l1 + matches p2 l2.
Proof.
  intros Hlen. unfold matches.
  rewrite zip_with_app by done. by rewrite filter_app, length_app.
Qed.

Lemma matches_le (pred : list nat) (target : list Z) : matches pred target ≤ length target.
Proof.
  unfold matches. etrans; [apply length_filter |].
  rewrite length_zip_with. lia.
Qed.

Lemma chunk_rows_concat {A} (fuel batchsize : nat) (rows : list A) :
  0 < batchsize → length rows ≤ fuel → concat (chunk_rows fuel batchsize rows) = rows.
Proof.
  intros Hb. revert rows. induction fuel as [|fuel IH]; intros rows Hf.
  - destruct rows; simpl in *; [done | lia].
  - destruct rows as [|x rows]; [done |].
    change ((take batchsize (x :: rows)
              ++ concat (chunk_rows fuel batchsize (drop batchsize (x :: rows))))%list
            = x :: rows).
    rewrite IH; [apply take_drop |].
    rewrite length_drop. simpl in *. lia.
Qed.

Lemma DataLoader_new_partition (dataset : Frame Z) (batchsize : nat) :
  0 < batchsize →
  concat (f_rows <$> get_chunks (DataLoader_new dataset batchsize)) = f_rows dataset.
Proof.
  intros Hb. simpl. rewrite <-list_fmap_compose.
  assert (Hid : ∀ l : list (list (VRow Z)),
            (f_rows ∘ mkFrame (f_width dataset)) <$> l = l).
  { induction l as [|x l IH]; simpl; [done | by f_equal]. }
  rewrite Hid. by apply chunk_rows_concat.
Qed.

Lemma Qmake_nat_bounds (c t : nat) :
  c ≤ t → 0 < t → (0 <= Z.of_nat c # Pos.of_nat t <= 1)%Q.
Proof.
  intros Hc Ht. unfold Qle. simpl.
  assert (Hp : Z.pos (Pos.of_nat t) = Z.of_nat t).
  { rewrite <-positive_nat_Z, Nat2Pos.id; lia. }
  lia.
Qed.

Lemma Qmake_nat_div (c t : nat) :
  0 < t → (Z.of_nat c # Pos.of_nat t == inject_Z (Z.of_nat c) / inject_Z (Z.of_nat t))%Q.
Proof.
  intros Ht.
  assert (Hp : Z.pos (Pos.of_nat t) = Z.of_nat t).
  { rewrite <-positive_nat_Z, Nat2Pos.id; lia. }
  rewrite <-Hp. rewrite (Qmake_Qdiv (Z.of_nat c) (Pos.of_nat t)). reflexivity.
Qed.

Section Evaluate.
Context `{FW : Framework} `{VZ : Vectoriser}.

Lemma model_reader_cfoldM {A B} (f : A → B → Comp State A) (a : A) (l : list B) :
  (∀ a x, model_reader (f a x)) → model_reader (cfoldM f a l).
Proof.
  intros Hf. revert a. induction l as [|x l IH]; intros a; simpl.
  - apply model_reader_ret.
  - apply model_reader_bind; [apply Hf | apply IH].
Qed.

Lemma model_reader_evaluate_batch pad correct df :
  model_reader (evaluate_batch pad correct df).
Proof.
  unfold evaluate_batch. cbv zeta.
  repeat first
    [ apply model_reader_ret
    | apply model_reader_clift
    | apply model_reader_call_model
    | apply model_reader_bind; [|intros ?]
    | match goal with |- model_reader (match ?x with _ => _ end) => destruct x end ].
Qed.

Lemma evaluate_batch_run (s : State) m pad correct df preds :
  model s = Some m →
  batch_predictions m pad df = Ok preds →
  length preds = length (f_rows df) →
  evaluate_batch pad correct df s = (s, Ok (correct + matches preds (v_type <$> f_rows df))).
Proof.
  intros Hm Hp Hlen. unfold batch_predictions in Hp. unfold evaluate_batch. cbv zeta.
  unfold mbind at 1, result_bind, rbind in Hp.
  destruct (_create_variables (drop_columns df) pad) as [[input lens]|e] eqn:Hcv; [|done].
  unfold mbind at 1, result_bind, rbind in Hp.
  destruct (rnn_forward m input lens) as [output|e] eqn:Hfw; [|done].
  erewrite clift_bind_ok by done. simpl.
  erewrite cbind_ok by (by eapply call_model_ok).
  erewrite clift_bind_ok by exact Hp.
  erewrite clift_bind_ok; [done |].
  unfold eq_count, _create_types_tensor. rewrite length_fmap.
  by case_decide.
Qed.

Lemma evaluate_loop_run (s : State) m pad chunks predss correct :
  model s = Some m →
  Forall2 (λ df preds, batch_predictions m pad df = Ok preds
                       ∧ length preds = length (f_rows df)) chunks predss →
  cfoldM (evaluate_batch pad) correct chunks s
  = (s, Ok (correct + matches (concat predss) (v_type <$> concat (f_rows <$> chunks)))).
Proof.
  intros Hm Hall. revert correct.
  induction Hall as [|df preds chunks predss [Hp Hlen] _ IH]; intros correct; simpl.
  - unfold matches. simpl. by rewrite Nat.add_0_r.
  - erewrite cbind_ok by (by eapply evaluate_batch_run).
    rewrite IH. rewrite fmap_app, matches_app by (by rewrite length_fmap).
    by rewrite Nat.add_assoc.
Qed.

(** C6. When every chunk of the data loader gets its predictions and the
    loader's [dataset_len] is the number of its examples, at least one,
    [evaluate_model] returns the number of examples whose arg-max
    prediction equals their label divided by the number of examples, a
    value between 0 and 1, and leaves the detector as it was. *)
Theorem evaluate_model_accuracy (s : State) m dataloader pad_max_len predss :
  model s = Some m →
  Forall2 (λ df preds, batch_predictions m pad_max_len df = Ok preds
                       ∧ length preds = length (f_rows df))
          (get_chunks dataloader) predss →
  dataset_len dataloader = length (concat (f_rows <$> get_chunks dataloader)) →
  0 < dataset_len dataloader →
  let labels := v_type <$> concat (f_rows <$> get_chunks dataloader) in
  let correct := matches (concat predss) labels in
  let total := dataset_len dataloader in
  ∃ accuracy,
    evaluate_model dataloader pad_max_len s = (s, Ok accuracy)
    ∧ (accuracy == inject_Z (Z.of_nat correct) / inject_Z (Z.of_nat total))%Q
    ∧ correct ≤ total
    ∧ (0 <= accuracy <= 1)%Q.
Proof.
  intros Hm Hall Hlen Hpos labels correct total.
  exists (Z.of_nat correct # Pos.of_nat total)%Q.
  assert (Hle : correct ≤ total).
  { unfold correct, total. etrans; [apply matches_le |].
    unfold labels. by rewrite length_fmap, Hlen. }
  split; [|split; [by apply Qmake_nat_div | split; [done | by apply Qmake_nat_bounds]]].
  unfold evaluate_model.
  erewrite cbind_ok by (by eapply evaluate_loop_run).
  case_decide; [lia | done].
Qed.

End Evaluate.

Lemma evaluate_model_accuracy_witness :
  let dataloader :=
    DataLoader_new (DGADataset (DataFrame [("ab", 0); ("abcd", 1); ("xyz", 0)]%Z) 100) 2 in
  ∃ accuracy,
    evaluate_model (FW := toy) dataloader 8 toy_state = (toy_state, Ok accuracy)
    ∧ (accuracy == 2 # 3)%Q
    ∧ (0 <= accuracy <= 1)%Q.
Proof.
  intros dataloader.
  assert (Hall : Forall2 (λ df preds,
                    batch_predictions (FW := toy) (RNNClassifier_new 128 100 2 3) 8 df
                    = Ok preds ∧ length preds = length (f_rows df))
                   (get_chunks dataloader) [[1; 1]; [0]]).
  { vm_compute. repeat (constructor; [split; reflexivity |]). constructor. }
  assert (Hpos : 0 < dataset_len dataloader) by (vm_compute; lia).
  destruct (evaluate_model_accuracy (FW := toy) toy_state _ dataloader 8 _
              eq_refl Hall eq_refl Hpos)
    as (accuracy & Hrun & Heq & _ & Hbounds).
  exists accuracy. split; [exact Hrun |]. split; [|exact Hbounds].
  rewrite Heq. reflexivity.
Defined.

(** ** An empty test partition *)

Section EmptyTest.
Context `{FW : Framework} `{VZ : Vectoriser}.

Lemma order_nil : order [] = [].
Proof. apply Permutation_nil_r. by rewrite order_perm. Qed.

Lemma DGADataset_nil (truncate : nat) : f_rows (DGADataset (_create_df []) truncate) = [].
Proof. unfold DGADataset, str2ascii. simpl. by rewrite order_nil. Qed.

Lemma preprocess_test_empty train_data labels batch_size train_size truncate :
  snd (train_test_split (zip train_data labels) train_size) = [] →
  let test_dataloader :=
    snd (_preprocess_data train_data labels batch_size train_size truncate) in
  dataset_len test_dataloader = 0 ∧ get_chunks test_dataloader = [].
Proof.
  intros Htest. unfold _preprocess_data.
  destruct (train_test_split (zip train_data labels) train_size) as [train test].
  simpl in Htest. subst test. cbn [snd]. unfold DataLoader_new.
  cbn [dataset_len get_chunks]. by rewrite DGADataset_nil.
Qed.

Lemma evaluate_model_no_chunks (s : State) dataloader pad :
  dataset_len dataloader = 0 → get_chunks dataloader = [] →
  evaluate_model dataloader pad s = (s, Raise ZeroDivisionError).
Proof.
  intros Hlen Hchunks. unfold evaluate_model. rewrite Hchunks. simpl.
  erewrite cbind_ok by done. by case_decide.
Qed.

Lemma evaluate_model_no_examples (s : State) dataloader pad :
  dataset_len dataloader = 0 → ∃ e, snd (evaluate_model dataloader pad s) = Raise e.
Proof.
  intros Hlen. unfold evaluate_model, mbind, comp_bind, cbind.
  destruct (cfoldM (evaluate_batch pad) 0 (get_chunks dataloader) s) as [s1 [c|e]].
  - case_decide; [by eexists | done].
  - by eexists.
Qed.

Lemma crepeat_first_raise {S} (n : nat) (c : Comp S unit) s s' e :
  0 < n → c s = (s', Raise e) → crepeat n c s = (s', Raise e).
Proof.
  intros Hn Hc. destruct n as [|n]; [lia |]. simpl.
  by erewrite cbind_raise by exact Hc.
Qed.

(** C9. [evaluate_model] never returns an accuracy for a data loader
    whose [dataset_len] is zero; when the loader has no chunks, as the
    loader of an empty data set, the exception is the division by zero.
    Hence [train_model], asked for at least one epoch, raises whenever the
    split leaves the test partition empty: if the batch loop of the first
    epoch gets through, it is the division by zero right after it, with
    the detector as that loop left it. *)
Theorem empty_test_partition_fails :
  (∀ (s : State) dataloader pad,
     dataset_len dataloader = 0 →
     (∃ e, snd (evaluate_model dataloader pad s) = Raise e)
     ∧ (get_chunks dataloader = [] →
        evaluate_model dataloader pad s = (s, Raise ZeroDivisionError)))
  ∧ (∀ dataset batchsize,
       dataset_len (DataLoader_new dataset batchsize) = 0 →
       get_chunks (DataLoader_new dataset batchsize) = [])
  ∧ (∀ (s : State) train_data labels batch_size epochs train_size truncate pad,
       snd (train_test_split (zip train_data labels) train_size) = [] →
       0 < epochs → 0 < batch_size →
       let train_dataloader :=
         fst (_preprocess_data train_data labels batch_size train_size truncate) in
       let run := train_model train_data labels batch_size epochs train_size truncate pad in
       (∃ e, snd (run s) = Raise e)
       ∧ (∀ s0 s1 acc,
            model_train s = (s0, Ok tt) →
            cfoldM (train_batch pad (dataset_len train_dataloader)) (0%Q, 0)
                   (get_chunks train_dataloader) s0 = (s1, Ok acc) →
            run s = (s1, Raise ZeroDivisionError))).
Proof.
  split; [|split].
  - intros s dataloader pad Hlen. split.
    + by apply evaluate_model_no_examples.
    + by apply evaluate_model_no_chunks.
  - intros dataset batchsize Hlen. simpl in *.
    destruct (f_rows dataset); [done | simpl in Hlen; lia].
  - intros s train_data labels batch_size epochs train_size truncate pad
      Htest Hepochs Hbatch train_dataloader run.
    assert (Hepoch : ∀ s0, ∃ s1 e,
              train_epoch pad train_dataloader
                (snd (_preprocess_data train_data labels batch_size train_size truncate)) s0
              = (s1, Raise e)
              ∧ ∀ s2 acc,
                  cfoldM (train_batch pad (dataset_len train_dataloader)) (0%Q, 0)
                         (get_chunks train_dataloader) s0 = (s2, Ok acc) →
                  s1 = s2 ∧ e = ZeroDivisionError).
    { intros s0. unfold train_epoch.
      destruct (cfoldM (train_batch pad (dataset_len train_dataloader)) (0%Q, 0)
                       (get_chunks train_dataloader) s0) as [s2 [acc|e]] eqn:Hloop.
      - exists s2, ZeroDivisionError. split; [|by intros ?? [= <- _]].
        erewrite cbind_ok by exact Hloop.
        destruct (preprocess_test_empty train_data labels batch_size train_size truncate
                    Htest) as [Hlen Hchunks].
        by apply cbind_raise, evaluate_model_no_chunks.
      - exists s2, e. split; [|done].
        by erewrite cbind_raise by exact Hloop. }
    assert (Hrun : ∀ s0, run s0 = (model_train ≫= λ _,
              crepeat epochs (train_epoch pad train_dataloader
                (snd (_preprocess_data train_data labels batch_size train_size truncate)))) s0).
    { intros s0. unfold run, train_model, train_dataloader.
      by destruct (_preprocess_data train_data labels batch_size train_size truncate). }
    split.
    + rewrite Hrun. destruct (model_train s) as [s0 [[]|e]] eqn:Htrain.
      * erewrite cbind_ok by exact Htrain.
        destruct (Hepoch s0) as (s1 & e & He & _).
        erewrite crepeat_first_raise by done. by eexists.
      * erewrite cbind_raise by exact Htrain. by eexists.
    + intros s0 s1 acc Htrain Hloop. rewrite Hrun.
      erewrite cbind_ok by exact Htrain.
      destruct (Hepoch s0) as (s1' & e & He & Hz).
      destruct (Hz s1 acc Hloop) as [-> ->].
      by apply crepeat_first_raise.
Qed.

End EmptyTest.

Lemma empty_test_partition_fails_witness :
  ∃ s1, train_model (FW := toy) ["ab"; "abcd"] [0; 1]%Z 2 3 1%Q 100 8 toy_state
        = (s1, Raise ZeroDivisionError)
        ∧ state_dict <$> model s1 = Some 6%Z.
Proof.
  pose (train_dataloader :=
          fst (_preprocess_data (FW := toy) ["ab"; "abcd"] [0; 1]%Z 2 1%Q 100)).
  eassert (Htrain : model_train (FW := toy) toy_state = (_, Ok tt))
    by (vm_compute; reflexivity).
  match type of Htrain with
  | _ = (?s0, _) =>
      eassert (Hloop : cfoldM (train_batch 8 (dataset_len train_dataloader)) (0%Q, 0)
                         (get_chunks train_dataloader) s0 = (_, Ok _))
        by (vm_compute; reflexivity)
  end.
  eexists. split.
  - refine (proj2 (proj2 (proj2 (empty_test_partition_fails (FW := toy))) toy_state
              ["ab"; "abcd"] [0; 1]%Z 2 3 1%Q 100 8 eq_refl _ _) _ _ _ Htrain Hloop); lia.
  - reflexivity.
Defined.

(** ** Empty batches *)

Section EmptyBatches.
Context `{FW : Framework} `{VZ : Vectoriser}.

Lemma train_batch_empty pad train_len acc (df : Frame Z) :
  f_rows df = [] → train_batch pad train_len acc df = mret acc.
Proof.
  intros Hrows. unfold train_batch. destruct acc as [total_loss i].
  by rewrite Hrows.
Qed.

(** The batch loop of [train_model] passes over chunks without rows: they
    change neither the running loss, nor the batch counter, nor the
    detector, and raise nothing. *)
Lemma train_loop_skips_empty pad train_len acc (chunks : list (Frame Z)) (s : State) :
  cfoldM (train_batch pad train_len) acc chunks s
  = cfoldM (train_batch pad train_len) acc
      (filter (λ df, 0 < length (f_rows df)) chunks) s.
Proof.
  revert acc s. induction chunks as [|df chunks IH]; intros acc s; [done |].
  rewrite filter_cons. case_decide as Hdf.
  - simpl. unfold mbind, comp_bind, cbind.
    destruct (train_batch pad train_len acc df s) as [s' [acc'|e]]; [apply IH | done].
  - simpl. rewrite train_batch_empty by (destruct (f_rows df); simpl in *; [done | lia]).
    erewrite cbind_ok by done. apply IH.
Qed.

End EmptyBatches.

Section EvaluateEmpty.
Context `{FW : Framework} `{VZ : Vectoriser}.

(** [evaluate_model] has no test on the number of rows: a chunk without
    rows is turned into a batch without rows and given to the network,
    whose answer decides what happens. *)
Lemma evaluate_model_feeds_empty_batch (s : State) m w pad chunks total e :
  model s = Some m → w ≤ pad →
  rnn_forward m [] [] = Raise e →
  evaluate_model (mkDataLoader (mkFrame w [] :: chunks) total) pad s = (s, Raise e).
Proof.
  intros Hm Hw Hfw. unfold evaluate_model. simpl.
  apply cbind_raise. apply cbind_raise. unfold evaluate_batch. cbv zeta.
  erewrite clift_bind_ok
    by (unfold _create_variables; simpl; case_decide; [done | lia]).
  simpl.
  by erewrite cbind_raise by (by rewrite (call_model_run s m), Hfw).
Qed.

End EvaluateEmpty.

(** C5. The batch loop of [train_model] skips every chunk without rows,
    but the loop of [evaluate_model] does not: on a loader that yields a
    chunk without rows and then a chunk of one example, the toy network,
    which like the packing of an empty padded batch rejects a batch
    without rows, makes [evaluate_model] raise, where the same loader
    without the empty chunk is evaluated to accuracy 1. *)
Theorem evaluate_model_does_not_skip_empty :
  let empty := mkFrame 2 [] in
  let chunk := mkFrame 2 [mkVRow 0 "ab" 0%Z 2%Z [97; 98]%Z] in
  (∀ (s : @State toy),
     cfoldM (train_batch 8 1) (0%Q, 0) [empty; chunk] s
     = cfoldM (train_batch 8 1) (0%Q, 0) [chunk] s)
  ∧ evaluate_model (FW := toy) (mkDataLoader [empty; chunk] 1) 8 toy_state
    = (toy_state, Raise RuntimeError)
  ∧ evaluate_model (FW := toy) (mkDataLoader [chunk] 1) 8 toy_state
    = (toy_state, Ok (1 # 1)%Q).
Proof.
  intros empty chunk. split; [|split].
  - intros s. apply (train_loop_skips_empty (FW := toy) 8 1 (0%Q, 0) [empty; chunk] s).
  - apply (evaluate_model_feeds_empty_batch (FW := toy) toy_state
             (RNNClassifier_new (FW := toy) 128 100 2 3));
      [reflexivity | lia | reflexivity].
  - reflexivity.
Qed.

(** * Further properties of the detector *)

(** ** Calls on a detector without a model *)

Section Uninitialised.
Context `{FW : Framework} `{VZ : Vectoriser}.

Lemma model_train_raise (s : State) :
  model s = None → model_train s = (s, Raise AttributeError).
Proof.
  intros Hm. unfold model_train, get_model, mbind, comp_bind, cbind. by rewrite Hm.
Qed.

(** X1. Before [init_model] or [load_checkpoint], [predict] and
    [train_model] stop at their first statement with an [AttributeError],
    and [evaluate_model] stops at the first forward pass with a
    [TypeError], provided the first chunk fits the padding width; none of
    them changes the detector. *)
Theorem uninitialised_model_errors (s : State) :
  model s = None →
  (∀ domains probability truncate pad,
     predict domains probability truncate pad s = (s, Raise AttributeError))
  ∧ (∀ train_data labels batch_size epochs train_size truncate pad,
       train_model train_data labels batch_size epochs train_size truncate pad s
       = (s, Raise AttributeError))
  ∧ (∀ chunk chunks total pad,
       f_width chunk ≤ pad →
       evaluate_model (mkDataLoader (chunk :: chunks) total) pad s = (s, Raise TypeError)).
Proof.
  intros Hm. split; [|split].
  - intros domains probability truncate pad. unfold predict.
    by erewrite cbind_raise by (by apply model_eval_raise).
  - intros train_data labels batch_size epochs train_size truncate pad.
    unfold train_model.
    by erewrite cbind_raise by (by apply model_train_raise).
  - intros chunk chunks total pad Hw. unfold evaluate_model. simpl.
    apply cbind_raise. apply cbind_raise. unfold evaluate_batch. cbv zeta.
    destruct (create_variables_run (drop_columns chunk) pad Hw) as (input & lens & Hcv).
    erewrite clift_bind_ok by exact Hcv. simpl.
    apply cbind_raise. unfold call_model. by rewrite Hm.
Qed.

End Uninitialised.

Lemma uninitialised_model_errors_witness :
  predict (FW := toy) (PyList ["nvidia.com"]) false 100 100 toy_empty
  = (toy_empty, Raise AttributeError)
  ∧ evaluate_model (FW := toy)
      (mkDataLoader [mkFrame 2 [mkVRow 0 "ab" 0%Z 2%Z [97; 98]%Z]] 1) 8 toy_empty
    = (toy_empty, Raise TypeError).
Proof.
  destruct (uninitialised_model_errors (FW := toy) toy_empty eq_refl)
    as (Hpredict & _ & Heval).
  split; [apply Hpredict | apply Heval; simpl; lia].
Defined.

(** ** What [evaluate_model] and repeated [predict] calls leave behind *)

Section Readers.
Context `{FW : Framework} `{VZ : Vectoriser}.

Lemma model_reader_craise {A} (e : Exn) : model_reader (craise (A := A) e).
Proof. intros s. split; done. Qed.

Lemma model_reader_evaluate_model dataloader pad :
  model_reader (evaluate_model dataloader pad).
Proof.
  unfold evaluate_model. apply model_reader_bind.
  - apply model_reader_cfoldM. intros a x. apply model_reader_evaluate_batch.
  - intros correct. case_decide; [apply model_reader_craise | apply model_reader_ret].
Qed.

(** X2. [evaluate_model] never changes the detector, whether it returns
    an accuracy or raises: it does not even switch the model to
    evaluation mode, and its outcome depends on the detector's model
    only. *)
Theorem evaluate_model_keeps_detector (s : State) dataloader pad :
  fst (evaluate_model dataloader pad s) = s
  ∧ ∀ s', model s' = model s →
          snd (evaluate_model dataloader pad s') = snd (evaluate_model dataloader pad s).
Proof. apply model_reader_evaluate_model. Qed.

Lemma model_in_eval_mode_fmap (s : State) :
  model (in_eval_mode s) = set_training false <$> model s.
Proof. unfold in_eval_mode. by destruct (model s) as [m|] eqn:Hm; simpl; rewrite ?Hm. Qed.

Lemma in_eval_mode_idemp (s : State) : in_eval_mode (in_eval_mode s) = in_eval_mode s.
Proof. unfold in_eval_mode. by destruct (model s) as [m|] eqn:Hm; simpl; rewrite ?Hm. Qed.

(** X3. The outcome of [predict] depends on the detector's model up to
    its mode only: not on the optimizer, not on the saved files, and not
    on earlier [predict] calls, whatever they were asked and however they
    ended; a second call leaves the detector as the first left it. *)
Theorem predict_calls_independent (s : State) domains probability truncate pad :
  (∀ s', set_training false <$> model s' = set_training false <$> model s →
         snd (predict domains probability truncate pad s')
         = snd (predict domains probability truncate pad s))
  ∧ (∀ domains0 probability0 truncate0 pad0,
       let s0 := fst (predict domains0 probability0 truncate0 pad0 s) in
       snd (predict domains probability truncate pad s0)
       = snd (predict domains probability truncate pad s)
       ∧ fst (predict domains probability truncate pad s0) = s0).
Proof.
  split.
  - intros s' Heq. apply predict_result_model.
    by rewrite !model_in_eval_mode_fmap.
  - intros domains0 probability0 truncate0 pad0 s0. unfold s0.
    rewrite !predict_state, in_eval_mode_idemp. split; [|done].
    apply predict_result_model. by rewrite in_eval_mode_idemp.
Qed.

End Readers.

Lemma predict_calls_independent_witness :
  let s' := @mkState toy (model toy_state) (Some 7)
              (<["old.pth" := @mkCheckpoint toy 0%Z 1 1 1 1]> ∅) in
  snd (predict (FW := toy) (PyList ["nvidia.com"; "ab"]) false 100 12 s')
  = snd (predict (FW := toy) (PyList ["nvidia.com"; "ab"]) false 100 12 toy_state).
Proof.
  intros s'.
  exact (proj1 (predict_calls_independent (FW := toy) toy_state
                  (PyList ["nvidia.com"; "ab"]) false 100 12) s' eq_refl).
Defined.

(** ** Truncation and the padding width in [predict] *)

Lemma slice_replace_idemp (n : nat) (s : string) :
  slice_replace n "" (slice_replace n "" s) = slice_replace n "" s.
Proof.
  unfold slice_replace. rewrite !string_app_empty_r.
  apply substring_prefix_all. rewrite substring_prefix_length. lia.
Qed.

Lemma truncated_idemp (n : nat) (domains : list string) :
  truncated n (truncated n domains) = truncated n domains.
Proof.
  unfold truncated. rewrite <-list_fmap_compose.
  apply list_fmap_ext. intros i d _. apply slice_replace_idemp.
Qed.


Section PredictInputs.
Context `{FW : Framework} `{VZ : Vectoriser}.

Lemma predict_frame_of_truncated (domains : list string) (truncate : nat) :
  predict_frame (PyList domains) truncate
  = str2ascii (DataFrame ((λ d, (d, tt)) <$> truncated truncate domains)).
Proof.
  unfold predict_frame, domain_frame. cbv zeta.
  assert (Hdf : (λ r : nat * string, (fst r, (snd r, tt))) <$> DataFrame domains
                = DataFrame ((λ d, (d, tt)) <$> domains)).
  { apply list_eq. intros i.
    rewrite list_lookup_fmap, !DataFrame_lookup, list_lookup_fmap.
    by destruct (domains !! i). }
  rewrite Hdf, truncate_DataFrame. f_equal. f_equal.
  unfold truncated. by rewrite <-!list_fmap_compose.
Qed.

Lemma truncated_column (domains : list string) (truncate : nat) :
  (λ r : nat * string, (fst r, slice_replace truncate "" (snd r))) <$> DataFrame domains
  = DataFrame (truncated truncate domains).
Proof.
  apply list_eq. intros i. unfold truncated.
  rewrite list_lookup_fmap, !DataFrame_lookup, list_lookup_fmap.
  by destruct (domains !! i).
Qed.

Lemma str_slice_replace_DataFrame (domains : list string) (truncate : nat) :
  str_slice_replace truncate (DataFrame domains)
  = match truncated truncate domains with
    | [] => Raise AttributeError
    | _ => Ok (DataFrame (truncated truncate domains))
    end.
Proof.
  destruct domains as [|d domains]; [done |].
  rewrite str_slice_replace_ok by done. by rewrite truncated_column.
Qed.

Lemma predict_same_truncated (domains1 domains2 : list string) probability truncate pad :
  truncated truncate domains1 = truncated truncate domains2 →
  predict (PyList domains1) probability truncate pad
  = predict (PyList domains2) probability truncate pad.
Proof.
  intros Heq. unfold predict, domain_frame.
  rewrite !predict_frame_of_truncated, !str_slice_replace_DataFrame. by rewrite Heq.
Qed.

(** X4. [predict] sees of each domain its first [truncate] characters
    only: two inputs that agree after truncation get the same outcome, so
    cutting the domains to [truncate] characters beforehand changes
    nothing. *)
Theorem predict_reads_prefixes (domains : list string) probability truncate pad :
  (∀ domains', truncated truncate domains' = truncated truncate domains →
     predict (PyList domains') probability truncate pad
     = predict (PyList domains) probability truncate pad)
  ∧ predict (PyList (truncated truncate domains)) probability truncate pad
    = predict (PyList domains) probability truncate pad.
Proof.
  split.
  - intros domains'. apply predict_same_truncated.
  - apply predict_same_truncated, truncated_idemp.
Qed.


End PredictInputs.

Lemma predict_reads_prefixes_witness :
  predict (FW := toy) (PyList ["nvidia.example"; "ab"]) true 6 8
  = predict (FW := toy) (PyList ["nvidia.com"; "ab"]) true 6 8.
Proof.
  exact (proj1 (predict_reads_prefixes (FW := toy) ["nvidia.com"; "ab"] true 6 8)
           ["nvidia.example"; "ab"] eq_refl).
Defined.


(** ** Initialising and loading *)

Section InitLoad.
Context `{FW : Framework} `{VZ : Vectoriser}.

Lemma init_model_initialised (s : State) m char_vocab hidden n_domain_type layers :
  model s = Some m → init_model char_vocab hidden n_domain_type layers s = (s, Ok tt).
Proof.
  intros Hm. unfold init_model. erewrite cbind_ok by reflexivity. by rewrite Hm.
Qed.

Lemma init_model_model (s : State) char_vocab hidden n_domain_type layers :
  is_Some (model (fst (init_model char_vocab hidden n_domain_type layers s))).
Proof.
  unfold init_model. erewrite cbind_ok by reflexivity.
  destruct (model s) as [m|] eqn:Hm; simpl; [by rewrite Hm | done].
Qed.

(** X6. [init_model] builds a network only when the detector has none:
    on a detector that has a model, from [init_model], [load_checkpoint]
    or training, it changes nothing, whatever sizes it is given; so a
    second [init_model] with other sizes does not resize the network. *)
Theorem init_model_only_once (s : State) char_vocab hidden n_domain_type layers :
  (∀ m, model s = Some m →
        init_model char_vocab hidden n_domain_type layers s = (s, Ok tt))
  ∧ (∀ char_vocab0 hidden0 n_domain_type0 layers0,
       let s0 := fst (init_model char_vocab0 hidden0 n_domain_type0 layers0 s) in
       init_model char_vocab hidden n_domain_type layers s0 = (s0, Ok tt))
  ∧ (∀ file_path c, files s !! file_path = Some c →
       let s0 := fst (load_checkpoint file_path s) in
       init_model char_vocab hidden n_domain_type layers s0 = (s0, Ok tt)
       ∧ output_size <$> model s0 = Some (ck_output_size c)).
Proof.
  split; [|split].
  - intros m. apply init_model_initialised.
  - intros char_vocab0 hidden0 n_domain_type0 layers0 s0.
    destruct (init_model_model s char_vocab0 hidden0 n_domain_type0 layers0) as [m Hm].
    by apply (init_model_initialised s0 m).
  - intros file_path c Hc s0. unfold s0.
    rewrite (load_checkpoint_run s file_path c Hc). simpl. split; [|done].
    by eapply init_model_initialised.
Qed.

(** X7. [load_checkpoint] reads nothing of the current detector but its
    files: a missing file raises and leaves the detector as it is; a file
    that is there replaces model and optimizer, whatever they were, also
    when there was no model, and leaves the files alone. *)
Theorem load_checkpoint_replaces (s : State) (file_path : string) :
  (files s !! file_path = None →
   load_checkpoint file_path s = (s, Raise FileNotFoundError))
  ∧ (∀ c, files s !! file_path = Some c →
       snd (load_checkpoint file_path s) = Ok tt
       ∧ files (fst (load_checkpoint file_path s)) = files s
       ∧ (architecture <$> model (fst (load_checkpoint file_path s))
          = Some (ck_input_size c, ck_hidden_size c, ck_output_size c, ck_n_layers c))
       ∧ (state_dict <$> model (fst (load_checkpoint file_path s)) = Some (ck_state_dict c))
       ∧ ∀ s', files s' = files s →
               load_checkpoint file_path s' = load_checkpoint file_path s).
Proof.
  split.
  - intros Hc. unfold load_checkpoint.
    by erewrite cbind_raise by (unfold torch_load; by rewrite Hc).
  - intros c Hc. rewrite (load_checkpoint_run s file_path c Hc). simpl.
    repeat split; try done.
    intros s' Hs'. rewrite (load_checkpoint_run s' file_path c) by (by rewrite Hs').
    by rewrite Hs'.
Qed.

(** X8. [save_checkpoint] changes neither model nor optimizer, and the
    file it writes carries the model to any detector that reads it: after
    [load_checkpoint] on a detector with those files, with another model
    or none, every [predict] call is answered as by the detector that
    saved. *)
Theorem checkpoint_transfers (s : State) m (file_path : string) :
  model s = Some m →
  let s1 := fst (save_checkpoint file_path s) in
  model s1 = model s ∧ optimizer s1 = optimizer s
  ∧ ∀ s', files s' = files s1 →
      ∃ s2, load_checkpoint file_path s' = (s2, Ok tt)
        ∧ architecture <$> model s2 = Some (architecture m)
        ∧ ∀ domains probability truncate pad,
            snd (predict domains probability truncate pad s2)
            = snd (predict domains probability truncate pad s).
Proof.
  intros Hm s1. unfold s1. rewrite (save_checkpoint_run s m file_path Hm). simpl.
  split; [done |]. split; [done |].
  intros s' Hfiles. eexists. split.
  - apply load_checkpoint_run. rewrite Hfiles. apply lookup_insert_eq.
  - simpl. split; [done |].
    intros domains probability truncate pad.
    apply predict_result_model. unfold in_eval_mode. simpl. rewrite Hm. simpl.
    by destruct m.
Qed.

End InitLoad.

Lemma init_model_only_once_witness :
  init_model (FW := toy) 64 10 5 1 toy_state = (toy_state, Ok tt).
Proof.
  exact (proj1 (init_model_only_once (FW := toy) toy_state 64 10 5 1)
           (RNNClassifier_new (FW := toy) 128 100 2 3) eq_refl).
Defined.

Lemma load_checkpoint_replaces_witness :
  load_checkpoint (FW := toy) "missing.pth" toy_state
  = (toy_state, Raise FileNotFoundError).
Proof.
  exact (proj1 (load_checkpoint_replaces (FW := toy) toy_state "missing.pth") eq_refl).
Defined.

Lemma checkpoint_transfers_witness :
  let s1 := fst (save_checkpoint (FW := toy) "dga.pth" toy_state) in
  let fresh := @mkState toy None None (files s1) in
  ∃ s2, load_checkpoint "dga.pth" fresh = (s2, Ok tt)
    ∧ snd (predict (PyList ["nvidia.com"; "ab"]) true 100 12 s2)
      = snd (predict (PyList ["nvidia.com"; "ab"]) true 100 12 toy_state).
Proof.
  intros s1 fresh.
  destruct (checkpoint_transfers (FW := toy) toy_state
              (RNNClassifier_new (FW := toy) 128 100 2 3) "dga.pth" eq_refl)
    as (_ & _ & Hload).
  destruct (Hload fresh eq_refl) as (s2 & Hs2 & _ & Hsame).
  exists s2. split; [exact Hs2 | apply Hsame].
Defined.

(** ** Training *)

Section Training.
Context `{FW : Framework} `{VZ : Vectoriser}.

Lemma DGADataset_rows (part : list (string * Z)) (truncate : nat) :
  let col := (λ x, (slice_replace truncate "" (fst x), snd x)) <$> part in
  f_width (DGADataset (_create_df part) truncate) = max_len (fst <$> col)
  ∧ Forall2 (λ k r, ∃ x, col !! k = Some x ∧ r = vectorise_row (max_len (fst <$> col)) (k, x))
            (order (fst <$> col)) (f_rows (DGADataset (_create_df part) truncate)).
Proof.
  intros col. unfold DGADataset, _create_df. rewrite truncate_DataFrame. fold col.
  split; [|apply (str2ascii_rows col)].
  unfold str2ascii. simpl. f_equal.
  rewrite <-(DataFrame_values col) at 2. by rewrite <-list_fmap_compose.
Qed.

Lemma DGADataset_examples (part : list (string * Z)) (truncate : nat) :
  (λ r, (v_domain r, v_type r)) <$> f_rows (DGADataset (_create_df part) truncate)
  ≡ₚ (λ x, (slice_replace truncate "" (fst x), snd x)) <$> part.
Proof.
  destruct (DGADataset_rows part truncate) as [_ Hrows].
  set (col := (λ x : string * Z, (slice_replace truncate "" (fst x), snd x)) <$> part) in *.
  apply (lookup_permutation col (order (fst <$> col))).
  - apply Forall2_fmap_r. eapply Forall2_impl; [exact Hrows |].
    intros k r (x & Hx & ->). simpl. by destruct x.
  - by rewrite order_perm, length_fmap.
Qed.

Lemma DataLoader_examples (part : list (string * Z)) (truncate batch_size : nat) :
  0 < batch_size →
  let dataloader := DataLoader_new (DGADataset (_create_df part) truncate) batch_size in
  dataset_len dataloader = length part
  ∧ examples_of dataloader ≡ₚ (λ x, (slice_replace truncate "" (fst x), snd x)) <$> part.
Proof.
  intros Hb dataloader. split.
  - change (length (f_rows (DGADataset (_create_df part) truncate)) = length part).
    rewrite <-(length_fmap (λ r : VRow Z, (v_domain r, v_type r))
                 (f_rows (DGADataset (_create_df part) truncate))).
    by rewrite DGADataset_examples, length_fmap.
  - unfold examples_of, dataloader. rewrite DataLoader_new_partition by done.
    apply DGADataset_examples.
Qed.

(** X9. [_preprocess_data] loses and invents no example: for a positive
    batch size, each of the two loaders counts as many examples as its
    side of the split, and the rows of its chunks are, up to order, the
    truncated domains of that side, each still with its own label. *)
Theorem preprocess_keeps_examples train_data labels batch_size train_size truncate :
  0 < batch_size →
  let split := train_test_split (zip train_data labels) train_size in
  let loaders := _preprocess_data train_data labels batch_size train_size truncate in
  let cut := λ x : string * Z, (slice_replace truncate "" (fst x), snd x) in
  dataset_len (fst loaders) = length (fst split)
  ∧ dataset_len (snd loaders) = length (snd split)
  ∧ examples_of (fst loaders) ≡ₚ cut <$> fst split
  ∧ examples_of (snd loaders) ≡ₚ cut <$> snd split.
Proof.
  intros Hb split loaders cut. unfold loaders, _preprocess_data, split.
  destruct (train_test_split (zip train_data labels) train_size) as [train test].
  cbn [fst snd].
  destruct (DataLoader_examples train truncate batch_size Hb) as [Hlen1 Hex1].
  destruct (DataLoader_examples test truncate batch_size Hb) as [Hlen2 Hex2].
  done.
Qed.

End Training.

Lemma preprocess_keeps_examples_witness :
  let loaders := _preprocess_data (FW := toy) ["nvidia.com"; "ab"; "xyzzy"] [0; 1; 1]%Z
                   2 (2 # 3)%Q 4 in
  dataset_len (fst loaders) = 2 ∧ dataset_len (snd loaders) = 1
  ∧ examples_of (fst loaders) ≡ₚ [("nvid", 0%Z); ("ab", 1%Z)]
  ∧ examples_of (snd loaders) ≡ₚ [("xyzz", 1%Z)].
Proof.
  intros loaders.
  assert (Hb : 0 < 2) by lia.
  exact (preprocess_keeps_examples (FW := toy) ["nvidia.com"; "ab"; "xyzzy"] [0; 1; 1]%Z
           2 (2 # 3)%Q 4 Hb).
Defined.

Section TrainModel.
Context `{FW : Framework} `{VZ : Vectoriser}.

Lemma keeps_shape_ret {A} (a : A) : keeps_shape (mret a).
Proof. intros s. split; done. Qed.

Lemma keeps_shape_bind {A B} (c : Comp State A) (k : A → Comp State B) :
  keeps_shape c → (∀ a, keeps_shape (k a)) → keeps_shape (c ≫= k).
Proof.
  intros Hc Hk s. unfold mbind, comp_bind, cbind.
  destruct (Hc s) as [Hshape Hfiles].
  destruct (c s) as [s1 [a|e]]; simpl in *; [|done].
  destruct (Hk a s1) as [Hshape' Hfiles']. split; congruence.
Qed.

Lemma model_reader_keeps_shape {A} (c : Comp State A) : model_reader c → keeps_shape c.
Proof. intros Hc s. destruct (Hc s) as [-> _]. done. Qed.

Lemma keeps_shape_cfoldM {A B} (f : A → B → Comp State A) (a : A) (l : list B) :
  (∀ a x, keeps_shape (f a x)) → keeps_shape (cfoldM f a l).
Proof.
  intros Hf. revert a. induction l as [|x l IH]; intros a; simpl.
  - apply keeps_shape_ret.
  - apply keeps_shape_bind; [apply Hf | apply IH].
Qed.

Lemma keeps_shape_crepeat (n : nat) (c : Comp State unit) :
  keeps_shape c → keeps_shape (crepeat n c).
Proof.
  intros Hc. induction n as [|n IH]; simpl.
  - apply keeps_shape_ret.
  - apply keeps_shape_bind; [apply Hc | intros _; apply IH].
Qed.

Lemma keeps_shape_get_loss model_result types_tensor :
  keeps_shape (_get_loss model_result types_tensor).
Proof.
  unfold _get_loss.
  apply keeps_shape_bind; [apply model_reader_keeps_shape, model_reader_clift |].
  intros loss s. unfold mbind, comp_bind, cbind, cget, get_model. simpl.
  destruct (model s) as [m|] eqn:Hm; simpl; [|done].
  destruct (optimizer s) as [opt|]; simpl; [|done].
  destruct (optimizer_step m opt model_result types_tensor) as [params opt'].
  simpl. unfold shape. simpl. by rewrite Hm.
Qed.

Lemma keeps_shape_train_batch pad train_len acc df :
  keeps_shape (train_batch pad train_len acc df).
Proof.
  unfold train_batch. destruct acc as [total_loss i]. cbv zeta.
  case_decide; [|apply keeps_shape_ret].
  apply keeps_shape_bind; [apply model_reader_keeps_shape, model_reader_clift |].
  intros [input lens].
  apply keeps_shape_bind; [apply model_reader_keeps_shape, model_reader_call_model |].
  intros model_result.
  apply keeps_shape_bind; [apply keeps_shape_get_loss |].
  intros loss. repeat case_decide;
    first [apply keeps_shape_ret | apply model_reader_keeps_shape, model_reader_craise].
Qed.

Lemma keeps_shape_train_epoch pad train_dataloader test_dataloader :
  keeps_shape (train_epoch pad train_dataloader test_dataloader).
Proof.
  unfold train_epoch.
  apply keeps_shape_bind;
    [apply keeps_shape_cfoldM; intros; apply keeps_shape_train_batch | intros _].
  apply keeps_shape_bind;
    [apply model_reader_keeps_shape, model_reader_evaluate_model | intros _].
  apply keeps_shape_ret.
Qed.

Lemma model_train_run (s : State) m :
  model s = Some m →
  model_train s = (mkState (Some (set_training true m)) (optimizer s) (files s), Ok tt).
Proof.
  intros Hm. unfold model_train, get_model, set_model, mbind, comp_bind, cbind.
  by rewrite Hm.
Qed.

Lemma train_model_unfold train_data labels batch_size epochs train_size truncate pad s :
  train_model train_data labels batch_size epochs train_size truncate pad s
  = (model_train ≫= λ _,
       crepeat epochs
         (train_epoch pad
            (fst (_preprocess_data train_data labels batch_size train_size truncate))
            (snd (_preprocess_data train_data labels batch_size train_size truncate)))) s.
Proof.
  unfold train_model.
  by destruct (_preprocess_data train_data labels batch_size train_size truncate).
Qed.

(** X10. Whatever the data and however it ends, [train_model] leaves the
    architecture of the network and the saved files as they were and the
    model, if there is one, in training mode: training moves parameters
    and optimizer only. *)
Theorem train_model_keeps_architecture (s : State)
    train_data labels batch_size epochs train_size truncate pad :
  let s' := fst (train_model train_data labels batch_size epochs train_size truncate pad s) in
  architecture <$> model s' = architecture <$> model s
  ∧ training <$> model s' = (λ _, true) <$> model s
  ∧ files s' = files s.
Proof.
  intros s'. unfold s'. rewrite train_model_unfold.
  destruct (model s) as [m|] eqn:Hm.
  - erewrite cbind_ok by (by apply model_train_run).
    match goal with |- context [crepeat epochs ?c ?s0] =>
      destruct (keeps_shape_crepeat epochs c (keeps_shape_train_epoch pad _ _) s0)
        as [Hshape Hfiles];
      set (sf := fst (crepeat epochs c s0)) in *
    end.
    unfold shape in Hshape. simpl in Hshape, Hfiles.
    destruct (model sf) as [m'|]; simplify_eq/=.
    unfold architecture. repeat split; congruence.
  - erewrite cbind_raise by (by apply model_train_raise). simpl. by rewrite Hm.
Qed.

(** X11. With zero epochs [train_model] neither trains nor evaluates: on
    an initialised detector it returns at once, having only switched the
    model to training mode. *)
Theorem train_model_zero_epochs (s : State) m
    train_data labels batch_size train_size truncate pad :
  model s = Some m →
  train_model train_data labels batch_size 0 train_size truncate pad s
  = (mkState (Some (set_training true m)) (optimizer s) (files s), Ok tt).
Proof.
  intros Hm. rewrite train_model_unfold.
  by erewrite cbind_ok by (by apply model_train_run).
Qed.

End TrainModel.

Lemma train_model_zero_epochs_witness :
  state_dict <$> model (fst (train_model (FW := toy) ["ab"; "abcd"] [0; 1]%Z 2 0 (1 # 2)%Q
                               100 8 toy_state)) = Some 5%Z.
Proof.
  rewrite (train_model_zero_epochs (FW := toy) toy_state
             (RNNClassifier_new (FW := toy) 128 100 2 3)
             ["ab"; "abcd"] [0; 1]%Z 2 (1 # 2)%Q 100 8 eq_refl).
  reflexivity.
Defined.

Section TrainEvaluation.
Context `{FW : Framework} `{VZ : Vectoriser}.

Lemma evaluate_model_chunk_too_wide (s : State) chunk chunks total pad :
  pad < f_width chunk →
  evaluate_model (mkDataLoader (chunk :: chunks) total) pad s = (s, Raise ValueError).
Proof.
  intros Hw. unfold evaluate_model. simpl.
  apply cbind_raise. apply cbind_raise. unfold evaluate_batch. cbv zeta.
  by erewrite clift_bind_raise by (by apply create_variables_raise).
Qed.

Lemma max_len_pos_nonempty (doms : list string) : 0 < max_len doms → doms ≠ [].
Proof. intros Hpos ->. simpl in Hpos. lia. Qed.

Lemma test_loader_first_chunk (test : list (string * Z)) (truncate batch_size : nat) :
  0 < max_len (truncated truncate (fst <$> test)) →
  ∃ chunk chunks,
    get_chunks (DataLoader_new (DGADataset (_create_df test) truncate) batch_size)
    = chunk :: chunks
    ∧ f_width chunk = max_len (truncated truncate (fst <$> test)).
Proof.
  intros Hpos.
  destruct (DGADataset_rows test truncate) as [Hwidth Hrows].
  set (col := (λ x : string * Z, (slice_replace truncate "" (fst x), snd x)) <$> test) in *.
  assert (Hcol : fst <$> col = truncated truncate (fst <$> test)).
  { unfold col, truncated. by rewrite <-!list_fmap_compose. }
  rewrite Hcol in Hwidth, Hrows.
  apply Forall2_length in Hrows. rewrite order_length in Hrows.
  apply max_len_pos_nonempty in Hpos.
  unfold DataLoader_new. cbn [get_chunks].
  destruct (f_rows (DGADataset (_create_df test) truncate)) as [|r rows] eqn:Hr.
  { simpl in Hrows. destruct (truncated truncate (fst <$> test)); [done | simpl in *; lia]. }
  simpl. eexists _, _. split; [done |]. done.
Qed.

(** X12. [train_model] evaluates with the padding width 100 of
    [evaluate_model], not with its own [pad_max_len]: when a truncated
    test domain is longer than 100 characters, the first epoch ends in a
    [ValueError] from the evaluation, even though every training batch
    was built and stepped. *)
Theorem train_model_evaluates_at_width_100 (s s0 s1 : State) acc
    train_data labels batch_size epochs train_size truncate pad :
  0 < epochs → 0 < batch_size →
  100 < max_len (truncated truncate
                   (fst <$> snd (train_test_split (zip train_data labels) train_size))) →
  model_train s = (s0, Ok tt) →
  (let train_dataloader :=
     fst (_preprocess_data train_data labels batch_size train_size truncate) in
   cfoldM (train_batch pad (dataset_len train_dataloader)) (0%Q, 0)
          (get_chunks train_dataloader) s0 = (s1, Ok acc)) →
  train_model train_data labels batch_size epochs train_size truncate pad s
  = (s1, Raise ValueError).
Proof.
  intros Hepochs Hbatch Hlong Htrain Hloop. rewrite train_model_unfold.
  erewrite cbind_ok by exact Htrain.
  apply crepeat_first_raise; [done |].
  unfold train_epoch. erewrite cbind_ok by exact Hloop.
  apply cbind_raise.
  unfold _preprocess_data.
  destruct (train_test_split (zip train_data labels) train_size) as [train test].
  cbn [fst snd] in *.
  destruct (test_loader_first_chunk test truncate batch_size) as (chunk & chunks & Hc & Hw);
    [lia |].
  destruct (DataLoader_new (DGADataset (_create_df test) truncate) batch_size)
    as [chunks' total]. simpl in Hc. subst chunks'.
  apply evaluate_model_chunk_too_wide. lia.
Qed.

End TrainEvaluation.

Lemma train_model_evaluates_at_width_100_witness :
  snd (train_model (FW := toy)
         ["ab"; "aaaaaaaaaaaaaaaaaaaaaaaaaaaaaaaaaaaaaaaaaaaaaaaaaaaaaaaaaaaaaaaaaaaaaaaaaaaaaaaaaaaaaaaaaaaaaaaaaaaaa"]
         [0; 1]%Z 2 1 (1 # 2)%Q 150 150 toy_state) = Raise ValueError.
Proof.
  pose (train_data := ["ab"; "aaaaaaaaaaaaaaaaaaaaaaaaaaaaaaaaaaaaaaaaaaaaaaaaaaaaaaaaaaaaaaaaaaaaaaaaaaaaaaaaaaaaaaaaaaaaaaaaaaaaa"]).
  pose (train_dataloader :=
          fst (_preprocess_data (FW := toy) train_data [0; 1]%Z 2 (1 # 2)%Q 150)).
  eassert (Htrain : model_train (FW := toy) toy_state = (_, Ok tt))
    by (vm_compute; reflexivity).
  match type of Htrain with
  | _ = (?s0, _) =>
      eassert (Hloop : cfoldM (train_batch 150 (dataset_len train_dataloader)) (0%Q, 0)
                         (get_chunks train_dataloader) s0 = (_, Ok _))
        by (vm_compute; reflexivity)
  end.
  erewrite (train_model_evaluates_at_width_100 (FW := toy) toy_state _ _ _
              train_data [0; 1]%Z 2 1 (1 # 2)%Q 150 150);
    [reflexivity | lia | lia | vm_compute; lia | exact Htrain | exact Hloop].
Defined.

(** ** [evaluate_model] against [predict] *)

Lemma matches_class (cs : list nat) (tys : list Z) :
  matches cs tys = class_matches (Class <$> cs) tys.
Proof.
  unfold matches, class_matches. revert tys.
  induction cs as [|c cs IH]; intros [|t tys]; try reflexivity.
  change (zip (c :: cs) (t :: tys)) with ((c, t) :: zip cs tys).
  change (zip (Class <$> c :: cs) (t :: tys)) with ((Class c, t) :: zip (Class <$> cs) tys).
  rewrite !filter_cons.
  change (is_hit (Class c, t)) with (bool_decide (Z.of_nat c = t)).
  cbn [fst snd].
  destruct (decide (Z.of_nat c = t)) as [H|H],
    (decide (bool_decide (Z.of_nat c = t) = true)) as [H'|H'].
  - cbn [length]. f_equal. apply IH.
  - exfalso. apply H'. by apply bool_decide_eq_true.
  - apply bool_decide_eq_true in H'. done.
  - apply IH.
Qed.

Lemma class_matches_perm (out1 out2 : list Pred) (l1 l2 : list Z) :
  zip out1 l1 ≡ₚ zip out2 l2 → class_matches out1 l1 = class_matches out2 l2.
Proof. intros Hperm. unfold class_matches. by rewrite Hperm. Qed.

Lemma chunk_rows_single {A} (batchsize : nat) (rows : list A) :
  rows ≠ [] → length rows ≤ batchsize →
  chunk_rows (length rows) batchsize rows = [rows].
Proof.
  intros Hne Hb. destruct rows as [|x rows]; [done |].
  assert (Hstep : chunk_rows (length (x :: rows)) batchsize (x :: rows)
                  = take batchsize (x :: rows)
                    :: chunk_rows (length rows) batchsize (drop batchsize (x :: rows)))
    by reflexivity.
  rewrite Hstep, take_ge, drop_ge by done. by destruct (length rows).
Qed.

Lemma Forall2_same_keys {K A B C} (R1 : K → A → Prop) (R2 : K → B → Prop)
    (f : A → C) (g : B → C) (p : list K) (l1 : list A) (l2 : list B) :
  Forall2 R1 p l1 → Forall2 R2 p l2 →
  (∀ k a b, R1 k a → R2 k b → f a = g b) →
  f <$> l1 = g <$> l2.
Proof.
  intros H1. revert l2. induction H1 as [|k a p l1 Ha _ IH]; intros l2 H2 Hfg.
  - by inversion H2.
  - inversion H2 as [|? b ? l2' Hb H2']; subst. simpl. f_equal; [by eapply Hfg | by apply IH].
Qed.

Section EvaluatePredict.
Context `{FW : Framework} `{VZ : Vectoriser}.

Lemma dataset_frame_as_predict (domains : list string) (labels : list Z) (truncate : nat) :
  length labels = length domains →
  drop_columns (DGADataset (_create_df (zip domains labels)) truncate)
  = drop_columns (predict_frame (PyList domains) truncate).
Proof.
  intros Hlen.
  destruct (DGADataset_rows (zip domains labels) truncate) as [Hwidth Hrows].
  set (col := (λ x : string * Z, (slice_replace truncate "" (fst x), snd x))
                <$> zip domains labels) in *.
  assert (Hcol : fst <$> col = truncated truncate domains).
  { unfold col, truncated. rewrite <-list_fmap_compose.
    rewrite <-(fst_zip domains labels) at 2 by lia. by rewrite <-list_fmap_compose. }
  rewrite Hcol in Hwidth, Hrows.
  unfold drop_columns. rewrite Hwidth, predict_frame_width. f_equal.
  eapply Forall2_same_keys; [exact Hrows | apply predict_frame_rows |].
  intros k r1 r2 (x & Hx & ->) (d & Hd & ->). unfold encoded, vectorise_row. simpl.
  unfold col in Hx. rewrite list_lookup_fmap, lookup_zip_with, Hd in Hx. simpl in Hx.
  destruct (labels !! k); simplify_eq/=. done.
Qed.

Lemma dataset_types (domains : list string) (labels : list Z) (truncate i k : nat) :
  length labels = length domains →
  order (truncated truncate domains) !! i = Some k →
  (v_type <$> f_rows (DGADataset (_create_df (zip domains labels)) truncate)) !! i
  = labels !! k.
Proof.
  intros Hlen Hi.
  destruct (DGADataset_rows (zip domains labels) truncate) as [_ Hrows].
  set (col := (λ x : string * Z, (slice_replace truncate "" (fst x), snd x))
                <$> zip domains labels) in *.
  assert (Hcol : fst <$> col = truncated truncate domains).
  { unfold col, truncated. rewrite <-list_fmap_compose.
    rewrite <-(fst_zip domains labels) at 2 by lia. by rewrite <-list_fmap_compose. }
  rewrite Hcol in Hrows.
  destruct (Forall2_lookup_l _ _ _ _ _ Hrows Hi) as (r & Hr & x & Hx & ->).
  rewrite list_lookup_fmap, Hr. simpl.
  unfold col in Hx. rewrite list_lookup_fmap, lookup_zip_with in Hx.
  destruct (domains !! k) as [d|]; [|done]. simpl in Hx.
  destruct (labels !! k) as [l|]; simplify_eq/=. done.
Qed.

(** X13. On a detector in evaluation mode, [evaluate_model] and [predict]
    agree: for a loader that holds the labelled domains in one batch, the
    accuracy is the number of domains whose class from [predict] is their
    label, divided by the number of domains, although [evaluate_model]
    counts in the vectoriser's row order and [predict] answers in input
    order. *)
Theorem evaluate_model_agrees_with_predict (s : State) m (domains : list string) labels
    truncate pad batch_size input lens res :
  model s = Some m → training m = false →
  length labels = length domains → 0 < length domains →
  length domains ≤ batch_size →
  _create_variables (drop_columns (predict_frame (PyList domains) truncate)) pad
  = Ok (input, lens) →
  rnn_forward m input lens = Ok res →
  length res = length domains →
  Forall (λ row, row ≠ []) res →
  let dataloader :=
    DataLoader_new (DGADataset (_create_df (zip domains labels)) truncate) batch_size in
  ∃ out,
    snd (predict (PyList domains) false truncate pad s) = Ok out
    ∧ evaluate_model dataloader pad s
      = (s, Ok (Z.of_nat (class_matches (out.*2) labels)
                # Pos.of_nat (length domains))%Q).
Proof.
  intros Hm Htr Hlen Hpos Hb Hcv Hfw Hres Hrows dataloader.
  assert (Hmm : set_training false m = m) by (destruct m; simpl in *; by subst).
  destruct (rmapM_total argmax res) as [cs Hcs].
  { eapply Forall_impl; [exact Hrows |]. intros [|x row] Hrow; [done | by eexists]. }
  pose proof (proj1 (rmapM_ok _ _ _) Hcs) as Hall.
  assert (Hlcs : length cs = length domains) by (by rewrite <-(Forall2_length _ _ _ Hall)).
  assert (Hpreds : rmapM (post false) res = Ok (Class <$> cs)).
  { apply rmapM_ok, Forall2_fmap_r. eapply Forall2_impl; [exact Hall |].
    intros row c Hc. simpl. unfold to_class, mbind, result_bind, rbind. by rewrite Hc. }
  destruct (predict_run s m domains false truncate pad input lens res (Class <$> cs))
    as (out & Hrun & Hout & Halign); try done.
  { intros ->. simpl in Hpos. lia. }
  { by rewrite Hmm. }
  { by rewrite length_fmap. }
  exists out. rewrite Hrun. split; [done |].
  set (ds := DGADataset (_create_df (zip domains labels)) truncate).
  assert (Hnrows : length (f_rows ds) = length domains).
  { destruct (DataLoader_examples (zip domains labels) truncate 1) as [Hn _]; [lia |].
    change (length (f_rows ds) = length (zip domains labels)) in Hn.
    rewrite Hn, length_zip_with. lia. }
  assert (Hchunks : get_chunks dataloader = [ds]).
  { unfold dataloader, DataLoader_new. cbn [get_chunks]. fold ds.
    rewrite chunk_rows_single; [by destruct ds | | lia].
    intros Hnil. rewrite Hnil in Hnrows. simpl in Hnrows. lia. }
  assert (Hbatch : batch_predictions m pad ds = Ok cs).
  { unfold batch_predictions, ds.
    rewrite (dataset_frame_as_predict domains labels truncate Hlen), Hcv. simpl.
    unfold mbind, result_bind, rbind. by rewrite Hfw. }
  assert (Hcount : matches cs (v_type <$> f_rows ds) = class_matches (out.*2) labels).
  { rewrite matches_class. apply class_matches_perm.
    apply (lookup_permutation (zip (out.*2) labels) (order (truncated truncate domains))).
    - apply Forall2_same_length_lookup_2.
      + rewrite order_length, length_zip_with, !length_fmap. unfold truncated.
        rewrite length_fmap. lia.
      + intros i k [p l] Hi Hpl.
        apply lookup_zip_with_Some in Hpl as (p' & l' & [= <- <-] & Hp & Hl).
        unfold ds in Hl.
        rewrite (dataset_types domains labels truncate i k Hlen Hi) in Hl.
        rewrite lookup_zip_with, list_lookup_fmap, (Halign i k Hi), Hp. simpl.
        by rewrite Hl.
    - rewrite order_perm, length_zip_with. unfold truncated. rewrite !length_fmap.
      by replace (length out `min` length labels) with (length domains) by lia. }
  assert (Hloop : cfoldM (evaluate_batch pad) 0 [ds] s
                  = (s, Ok (matches cs (v_type <$> f_rows ds)))).
  { cbn [cfoldM].
    erewrite cbind_ok
      by (apply (evaluate_batch_run s m pad 0 ds cs Hm Hbatch); lia).
    reflexivity. }
  assert (Hdl : dataset_len dataloader = length domains) by exact Hnrows.
  unfold evaluate_model. rewrite Hchunks.
  erewrite cbind_ok by exact Hloop.
  rewrite Hdl, Hcount. case_decide; [lia | done].
Qed.

End EvaluatePredict.

Lemma evaluate_model_agrees_with_predict_witness :
  let domains := ["nvidia.com"; "ab"; "xyzzy"] in
  let labels := [1; 0; 0]%Z in
  let s := in_eval_mode toy_state in
  ∃ out,
    snd (predict (FW := toy) (PyList domains) false 100 12 s) = Ok out
    ∧ evaluate_model (FW := toy)
        (DataLoader_new (DGADataset (_create_df (zip domains labels)) 100) 5) 12 s
      = (s, Ok (Z.of_nat (class_matches (out.*2) labels) # 3)%Q).
Proof.
  intros domains labels s.
  pose (m := set_training false (RNNClassifier_new (FW := toy) 128 100 2 3)).
  eassert (Hcv : _create_variables (drop_columns (predict_frame (PyList domains) 100)) 12
                 = Ok (_, _)) by (vm_compute; reflexivity).
  match type of Hcv with
  | _ = Ok (?i, ?l) =>
      assert (Hfw : rnn_forward m i l = Ok (toy_scores 5 <$> l))
        by (vm_compute; reflexivity)
  end.
  refine (evaluate_model_agrees_with_predict (FW := toy) s m domains labels 100 12 5
            _ _ _ eq_refl eq_refl eq_refl _ _ Hcv Hfw eq_refl _).
  - simpl. lia.
  - simpl. lia.
  - repeat constructor; discriminate.
Defined.

Lemma evaluate_model_keeps_detector_witness :
  let dataloader := mkDataLoader [mkFrame 2 [mkVRow 0 "ab" 0%Z 2%Z [97; 98]%Z]] 1 in
  let s' := @mkState toy (model toy_state) None ∅ in
  snd (evaluate_model (FW := toy) dataloader 8 s')
  = snd (evaluate_model (FW := toy) dataloader 8 toy_state).
Proof.
  intros dataloader s'.
  exact (proj2 (evaluate_model_keeps_detector (FW := toy) toy_state dataloader 8)
           s' eq_refl).
Defined.
